(** * aoi.mongo: the key/value layer over the document store and its cache

    The repository carries two versions of the [Database] class:
    - [src/classes/Database.js], embedded in module [DatabaseJs];
    - the second source file (its name is not recorded), embedded in
      module [Part000].
    Both bind the same methods; [findMany] and [all] have the same text in
    both files and are embedded once.

    JavaScript values are embedded as the inductive [value]; the cache
    manager, the variable manager and the MongoDB driver are collaborators
    of the class and are embedded by the operations the class calls on
    them.  Every method is a computation in the monad [M]: it threads the
    state of the caches and of the store, appends every call made to a
    collaborator to a trace, and ends by returning or by throwing. *)

From stdpp Require Import gmap strings list fin_maps pretty sorting.
From Stdlib Require Import Ascii ZArith Lia.

Local Open Scope string_scope.
Local Open Scope Z_scope.

(** ** JavaScript values *)

(** The values that reach the class as ids and as stored values.  Numbers
    are the integers. *)
Inductive value : Type :=
  | VUndefined
  | VNull
  | VBool (b : bool)
  | VNum (n : Z)
  | VStr (s : string).

#[global] Instance value_eq_dec : EqDecision value.
Proof. solve_decision. Defined.

(** [if (v)]: undefined, null, false, 0 and the empty string are falsy. *)
Definition truthy (v : value) : bool :=
  match v with
  | VUndefined | VNull => false
  | VBool b => b
  | VNum n => negb (n =? 0)
  | VStr s => negb (String.eqb s "")
  end.

(** [`${v}`]: the string a template literal makes of a value.  A number
    is printed with all its digits; the language prints a number from
    1e21 on in exponent form, and no statement below depends on how a
    number of that size is printed. *)
Definition to_string (v : value) : string :=
  match v with
  | VUndefined => "undefined"
  | VNull => "null"
  | VBool true => "true"
  | VBool false => "false"
  | VNum n => pretty n
  | VStr s => s
  end.

(** The operand of [a.value - b.value] as a number; [None] is NaN.  A
    string operand goes through the language's string-to-number grammar,
    which is not embedded: it is taken as NaN here, and every statement on
    ordering below is about numeric values. *)
Definition to_number (v : value) : option Z :=
  match v with
  | VUndefined => None
  | VNull => Some 0
  | VBool b => Some (if b then 1 else 0)
  | VNum n => Some n
  | VStr _ => None
  end.

(** [a ?? b] *)
Definition nullish_or (a b : value) : value :=
  match a with
  | VUndefined | VNull => b
  | _ => a
  end.

(** [Array.prototype.slice(0, n)] for a number [n]: a negative [n] counts
    from the end. *)
Definition slice0 {A} (l : list A) (n : Z) : list A :=
  if n <? 0 then firstn (length l - Z.to_nat (- n)) l
  else firstn (Z.to_nat n) l.

(** ** Documents, collections, caches *)

(** A stored document [{key, value}] (the driver's [_id] field is never
    read by the class and is left out). *)
Record doc : Type := Doc { key : string; value_of : value }.

#[global] Instance doc_eq_dec : EqDecision doc.
Proof. solve_decision. Defined.

(** A database is the list of its collections, in the order
    [listCollections] enumerates them. *)
Definition collection : Type := list doc.
Definition database : Type := list (string * collection).

(** One cache group: a [Map] from composite key to value. *)
Abbreviation cache := (gmap string value).

(** Modelled from the spec: the variable manager belongs to the host
    application; its contract is [has(key, table)], a boolean, and
    [get(key, table)], whose [default] the class reads ([vm_default] is
    undefined when there is none). *)
Record VariableManager : Type := {
  vm_has : string -> string -> bool;
  vm_default : string -> string -> value
}.

(** Calls made to the collaborators, in the order they are made. *)
Inductive event : Type :=
  | CacheGet (cacheName k : string)
  | CacheSet (cacheName k : string) (v : value)
  | CacheDelete (cacheName k : string)
  | ListCollections (table : string)
  | ColFindOne (table col k : string)
  | ColFind (table col : string)
  | ColUpdateOne (table col k : string) (v : value)
  | ColDeleteOne (table col k : string)
  | ColDeleteMany (table col : string)
  | ColCountDocuments (table col : string)
  | ColDrop (table col : string)
  | DropDatabase (table : string).

Definition is_store_read (e : event) : bool :=
  match e with
  | ListCollections _ | ColFindOne _ _ _ | ColFind _ _
  | ColCountDocuments _ _ => true
  | _ => false
  end.

Definition is_store_write (e : event) : bool :=
  match e with
  | ColUpdateOne _ _ _ _ | ColDeleteOne _ _ _ | ColDeleteMany _ _
  | ColDrop _ _ | DropDatabase _ => true
  | _ => false
  end.

Definition is_store_access (e : event) : bool :=
  is_store_read e || is_store_write e.

Definition is_cache_write (e : event) : bool :=
  match e with
  | CacheSet _ _ _ | CacheDelete _ _ => true
  | _ => false
  end.

Definition count_events (p : event -> bool) (tr : list event) : nat :=
  length (List.filter p tr).

(** The state the class works on: [client.cacheManager.caches["Group"]]
    (cache name to cache), the databases of the connection (table to
    database) and the trace of calls. *)
Record state : Type := State {
  caches : gmap string (gmap string value);
  store : gmap string database;
  trace : list event
}.

Inductive js_error : Type :=
  | ReferenceError (name : string)
  | TypeError (what : string)
  | MongoError (what : string).

Inductive outcome (A : Type) : Type :=
  | Return (a : A)
  | Throw (e : js_error).
Arguments Return {A} a.
Arguments Throw {A} e.

(** ** The monad of the methods *)

Definition M (A : Type) : Type := state -> state * outcome A.

Definition ret {A} (a : A) : M A := fun st => (st, Return a).
Definition throw {A} (e : js_error) : M A := fun st => (st, Throw e).
Definition bind {A B} (m : M A) (f : A -> M B) : M B :=
  fun st =>
    match m st with
    | (st', Return a) => f a st'
    | (st', Throw e) => (st', Throw e)
    end.

#[global] Instance M_ret : MRet M := @ret.
#[global] Instance M_bind : MBind M := fun A B f m => bind m f.

Definition emit (e : event) : M unit :=
  fun st => (State (caches st) (store st) (trace st ++ [e])%list, Return tt).

(** ** The cache manager *)

(** Modelled from the spec: the caches belong to the host application;
    their contract is [get(k)] (undefined when there is no entry),
    [set(k, v)], [delete(k)] and the enumeration of the entries.
    [caches["Group"][cacheName]] may be undefined; a method call on it then
    throws a TypeError. *)
Definition with_cache {A} (cacheName : string) (f : gmap string value -> M A)
  : M A :=
  fun st =>
    match caches st !! cacheName with
    | Some c => f c st
    | None => (st, Throw (TypeError "cache is undefined"))
    end.

Definition put_cache (cacheName : string) (c : gmap string value) : M unit :=
  fun st =>
    (State (<[cacheName := c]> (caches st)) (store st) (trace st), Return tt).

(** [cache.get(k)]: the value held for [k], undefined when there is none. *)
Definition cache_get (cacheName k : string) : M value :=
  with_cache cacheName (fun c =>
    emit (CacheGet cacheName k);;
    mret (default VUndefined (c !! k))).

(** [cache.set(k, v)] *)
Definition cache_set (cacheName k : string) (v : value) : M unit :=
  with_cache cacheName (fun c =>
    emit (CacheSet cacheName k v);;
    put_cache cacheName (<[k := v]> c)).

(** [cache.delete(k)] *)
Definition cache_delete (cacheName k : string) : M unit :=
  with_cache cacheName (fun c =>
    emit (CacheDelete cacheName k);;
    put_cache cacheName (base.delete k c)).

(** The keys a loop over the cache visits.  The program visits them in
    insertion order, the embedding in the order of the map; the loops
    below end in the same cache either way. *)
Definition cache_keys (cacheName : string) : M (list string) :=
  with_cache cacheName (fun c => mret (map fst (map_to_list c))).

(** Modelled from the spec: [cache.cache], the read of a member called
    [cache] on a cache.  The caches are the groups on which [get], [set],
    [delete] and [keys()] are called; such a group has no member of that
    name, so the read gives undefined ([None]).  On an undefined cache
    the read throws. *)
Definition cache_cache (cacheName : string)
  : M (option (list (string * value))) :=
  with_cache cacheName (fun _ => ret None).

(** [for (const [key] of entries)]: the keys the loop visits.  A value
    that cannot be iterated, as undefined, throws a TypeError where the
    loop starts. *)
Definition entry_keys (entries : option (list (string * value)))
  : M (list string) :=
  match entries with
  | Some es => ret (map fst es)
  | None => throw (TypeError "cache.cache is not iterable")
  end.

(** ** The document store *)

(** Modelled from the spec: the store is reached through the driver, with
    one collection per key in the database of the table; the operations
    below are the ones the class calls, with the meaning the spec's store
    contract gives them. *)
Definition lookup_col (db : database) (col : string) : option collection :=
  snd <$> List.find (fun p => String.eqb (fst p) col) db.

(** [db.collection(col)]: a collection that does not exist reads as empty. *)
Definition docs_of (db : database) (col : string) : collection :=
  default [] (lookup_col db col).

Fixpoint alter_col (f : collection -> collection) (col : string)
    (db : database) : database :=
  match db with
  | [] => []
  | (n, ds) :: rest =>
      if String.eqb n col then (n, f ds) :: rest
      else (n, ds) :: alter_col f col rest
  end.

Fixpoint remove_col (col : string) (db : database) : database :=
  match db with
  | [] => []
  | (n, ds) :: rest =>
      if String.eqb n col then rest else (n, ds) :: remove_col col rest
  end.

Definition has_key (k : string) (d : doc) : bool := String.eqb (key d) k.

(** [$set: {value: v}] on the first document matching [{key: k}], or the
    insertion of [{key: k, value: v}] when none matches ([upsert: true]). *)
Fixpoint upsert_doc (k : string) (v : value) (ds : collection) : collection :=
  match ds with
  | [] => [Doc k v]
  | d :: rest =>
      if has_key k d then Doc (key d) v :: rest
      else d :: upsert_doc k v rest
  end.

Fixpoint remove_first (k : string) (ds : collection) : collection :=
  match ds with
  | [] => []
  | d :: rest => if has_key k d then rest else d :: remove_first k rest
  end.

(** The value the driver writes for [v]: with the driver's default
    serialisation an undefined field is written as null. *)
Definition bson_value (v : value) : value :=
  match v with
  | VUndefined => VNull
  | _ => v
  end.

Definition db_of (st : state) (table : string) : database :=
  default [] (store st !! table).

Definition read_db (table : string) : M database :=
  fun st => (st, Return (db_of st table)).

Definition write_db (table : string) (db : database) : M unit :=
  fun st =>
    (State (caches st) (<[table := db]> (store st)) (trace st), Return tt).

(** [db.listCollections().toArray()], as the names of the collections. *)
Definition listCollections (table : string) : M (list string) :=
  emit (ListCollections table);;
  db ← read_db table;
  mret (map fst db).

(** [collection(col).findOne({key: k})] *)
Definition col_findOne (table col k : string) : M (option doc) :=
  emit (ColFindOne table col k);;
  db ← read_db table;
  mret (List.find (has_key k) (docs_of db col)).

(** [collection(col).find(q).toArray()], [sel] being the documents [q]
    selects. *)
Definition col_find (table col : string) (sel : doc -> bool)
  : M (list doc) :=
  emit (ColFind table col);;
  db ← read_db table;
  mret (List.filter sel (docs_of db col)).

(** [collection(col).updateOne({key: k}, {$set: {value: v}}, {upsert: true})];
    the collection is created by its first write. *)
Definition col_updateOne (table col k : string) (v : value) : M unit :=
  emit (ColUpdateOne table col k v);;
  db ← read_db table;
  match lookup_col db col with
  | Some _ => write_db table (alter_col (upsert_doc k (bson_value v)) col db)
  | None => write_db table (db ++ [(col, [Doc k (bson_value v)])])%list
  end.

(** [collection(col).deleteOne({key: k})] *)
Definition col_deleteOne (table col k : string) : M unit :=
  emit (ColDeleteOne table col k);;
  db ← read_db table;
  write_db table (alter_col (remove_first k) col db).

(** [collection(col).deleteMany(q)], [sel] being the documents [q]
    selects. *)
Definition col_deleteMany (table col : string) (sel : doc -> bool) : M unit :=
  emit (ColDeleteMany table col);;
  db ← read_db table;
  write_db table (alter_col (List.filter (fun d => negb (sel d))) col db).

(** [collection(col).countDocuments({})] *)
Definition col_countDocuments (table col : string) : M nat :=
  emit (ColCountDocuments table col);;
  db ← read_db table;
  mret (length (docs_of db col)).

(** [collection(col).drop()]: dropping a collection that does not exist
    fails. *)
Definition col_drop (table col : string) : M unit :=
  emit (ColDrop table col);;
  db ← read_db table;
  match lookup_col db col with
  | Some _ => write_db table (remove_col col db)
  | None => throw (MongoError "ns not found")
  end.

(** [db(table).dropDatabase()] *)
Definition dropDatabase (table : string) : M unit :=
  emit (DropDatabase table);;
  write_db table [].

(** ** What both versions of the class share *)

(** The fields of a [Database] object the methods read: [this.debug] and
    [this.client.variableManager].  What a method prints to the console
    under [debug] is not part of the state. *)
Record Database : Type := {
  debug : bool;
  variableManager : VariableManager
}.

Definition aoijs_vars : list string := ["cooldown"; "setTimeout"; "ticketChannel"].

(** [aoijs_vars.includes(key)] *)
Definition includes (l : list string) (k : string) : bool :=
  existsb (String.eqb k) l.

Definition cacheName_of (table : string) : string := "c_" +:+ table.

(** What [get] hands back: nothing ([return;]), the store's null, a
    document as the store returned it, or a fresh [{key, value}]. *)
Inductive get_result : Type :=
  | RUndefined
  | RNull
  | RDoc (d : doc)
  | RRecord (k : string) (v : value).

(** The [value] field of a result, when it is an object. *)
Definition result_value (r : get_result) : option value :=
  match r with
  | RUndefined | RNull => None
  | RDoc d => Some (value_of d)
  | RRecord _ v => Some v
  end.

Definition result_key (r : get_result) : option string :=
  match r with
  | RUndefined | RNull => None
  | RDoc d => Some (key d)
  | RRecord k _ => Some k
  end.

(** [key.split("_")[0]]: the part of [s] before its first underscore. *)
Fixpoint split_head (s : string) : string :=
  match s with
  | EmptyString => EmptyString
  | String c rest =>
      if Ascii.eqb c "_"%char then EmptyString else String c (split_head rest)
  end.

(** The [query] argument of [deleteMany]: absent, a function (called on a
    key name for the cache; [sel] is what the store selects when handed
    it), or a filter object (not callable). *)
Inductive delete_query : Type :=
  | DQAbsent
  | DQFunction (f : string -> bool) (sel : doc -> bool)
  | DQFilter (sel : doc -> bool).

(** [query && query(cacheKey)] *)
Definition call_query (query : delete_query) (cacheKey : string) : M bool :=
  match query with
  | DQAbsent => mret false
  | DQFunction f _ => mret (f cacheKey)
  | DQFilter _ => throw (TypeError "query is not a function")
  end.

Definition store_selection (query : delete_query) : doc -> bool :=
  match query with
  | DQAbsent => fun _ => true
  | DQFunction _ sel => sel
  | DQFilter sel => sel
  end.

(** The [query] argument of [findMany]: a function of the document, or a
    filter of the store. *)
Inductive find_query : Type :=
  | FQFunction (f : doc -> bool)
  | FQFilter (sel : doc -> bool).

(** *** [findMany] *)

Fixpoint findMany_loop (table : string) (query : find_query)
    (limit : option Z) (collections : list string) (results : list doc)
  : M (list doc) :=
  match collections with
  | [] => mret results
  | name :: rest =>
      data ← match query with
             | FQFunction f =>
                 data ← col_find table name (fun _ => true);
                 mret (List.filter f data)
             | FQFilter sel => col_find table name sel
             end;
      let data :=
        match limit with
        | Some n => if negb (n =? 0) then slice0 data n else data
        | None => data
        end in
      findMany_loop table query limit rest (results ++ data)
  end.

Definition findMany (table : string) (query : find_query) (limit : option Z)
  : M (list doc) :=
  collections ← listCollections table;
  findMany_loop table query limit collections [].

(** *** [all] *)

(** [(a, b) => a.value - b.value]; [None] is NaN. *)
Definition compare_asc (a b : doc) : option Z :=
  match to_number (value_of a), to_number (value_of b) with
  | Some x, Some y => Some (x - y)
  | _, _ => None
  end.

(** [(a, b) => b.value - a.value] *)
Definition compare_desc (a b : doc) : option Z := compare_asc b a.

(** [Array.prototype.sort(cmp)] is a stable sort that keeps [a] before [b]
    when [cmp(a, b)] is not positive, NaN counting as zero.  For a
    comparator that orders the elements consistently there is one such
    arrangement; it is computed here by insertion. *)
Definition not_after (c : option Z) : bool :=
  match c with
  | Some z => z <=? 0
  | None => true
  end.

Fixpoint sort_insert (cmp : doc -> doc -> option Z) (x : doc)
    (l : list doc) : list doc :=
  match l with
  | [] => [x]
  | y :: rest =>
      if not_after (cmp x y) then x :: y :: rest
      else y :: sort_insert cmp x rest
  end.

Definition array_sort (cmp : doc -> doc -> option Z) (l : list doc)
  : list doc :=
  foldr (sort_insert cmp) [] l.

Fixpoint all_loop (table : string) (filter : doc -> bool)
    (collections : list string) (results : list doc) : M (list doc) :=
  match collections with
  | [] => mret results
  | name :: rest =>
      data ← col_find table name (fun _ => true);
      let data := List.filter filter data in
      all_loop table filter rest (results ++ data)
  end.

(** [list = 100] and [sort = "asc"] stand in for an absent argument. *)
Definition all (table : string) (filter : doc -> bool) (list_ : option Z)
    (sort : option string) : M (list doc) :=
  let list_ := default 100 list_ in
  let sort := default "asc" sort in
  collections ← listCollections table;
  results ← all_loop table filter collections [];
  let results :=
    if String.eqb sort "asc" then array_sort compare_asc results
    else if String.eqb sort "desc" then array_sort compare_desc results
    else results in
  mret (slice0 results list_).

(** *** [deleteMany], up to the point where the two files differ *)

(** The first loop of [deleteMany]: the cache keys to delete. *)
Fixpoint keysToDelete_loop (this : Database) (table : string)
    (query : delete_query) (keys : list string) (keysToDelete : list string)
  : M (list string) :=
  match keys with
  | [] => mret keysToDelete
  | k :: rest =>
      let cacheKey := split_head k in
      if vm_has (variableManager this) cacheKey table then
        let __var := vm_default (variableManager this) cacheKey table in
        if decide (__var = VUndefined) then
          keysToDelete_loop this table query rest keysToDelete
        else
          hit ← call_query query cacheKey;
          keysToDelete_loop this table query rest
            (if (hit : bool) then keysToDelete ++ [k] else keysToDelete)
      else keysToDelete_loop this table query rest keysToDelete
  end.

Fixpoint cache_delete_all (cacheName : string) (keys : list string) : M unit :=
  match keys with
  | [] => ret tt
  | k :: rest => cache_delete cacheName k;; cache_delete_all cacheName rest
  end.

Fixpoint deleteMany_cols (table : string) (query : delete_query)
    (collections : list string) : M unit :=
  match collections with
  | [] => ret tt
  | name :: rest =>
      col_deleteMany table name (store_selection query);;
      deleteMany_cols table query rest
  end.

(** Reading an identifier: a name that no enclosing scope binds throws a
    ReferenceError.  [scope] lists the string-valued names in scope. *)
Definition identifier (scope : list (string * string)) (name : string)
  : M string :=
  match List.find (fun b => String.eqb (fst b) name) scope with
  | Some b => ret (snd b)
  | None => throw (ReferenceError name)
  end.

(** [if (variable)] on the optional collection name of [drop]. *)
Definition given (variable : option string) : option string :=
  match variable with
  | Some v => if String.eqb v "" then None else Some v
  | None => None
  end.

(** *** Start-up and cache loading *)

(** The options the constructor keeps, as far as [connect] reads them:
    [options.tables] (absent or a list) and [options.logging !== false]. *)
Record Options : Type := {
  tables : option (list string);
  logging : bool
}.

(** What the driver and the server answer during start-up: whether
    [new MongoClient(url, ...)] throws (a malformed url), whether
    [connect()] throws, and the outcome of the admin [ping] command
    ([res.ok], or a throw).  [elapsed] is the difference of the two clock
    readings of [ping]. *)
Record Server : Type := {
  client_answer : option js_error;
  connect_answer : option js_error;
  ping_answer : outcome bool;
  elapsed : Z
}.

(** How [connect] ends: the class is ready with its list of tables, or the
    process is ended by [process.exit(code)]. *)
Inductive startup : Type :=
  | Ready (tables : list string)
  | Exit (code : Z).

(** The two checks of [options.tables] and the list kept in
    [client.db.tables]. *)
Definition checked_tables (options : Options) : M (list string) :=
  match tables options with
  | None | Some [] =>
      throw (TypeError
        "Missing variable tables, please provide at least one table.")
  | Some ts =>
      if includes ts "__aoijs_vars__" then
        throw (TypeError "'__aoijs_vars__' is reserved as a table name.")
      else ret (ts ++ ["__aoijs_vars__"])%list
  end.

(** [this.client.db = new MongoClient(this.options.url, ...)] *)
Definition client_new (server : Server) : M unit :=
  match client_answer server with
  | Some e => throw e
  | None => ret tt
  end.

(** [await this.client.db.connect()] *)
Definition client_connect (server : Server) : M unit :=
  match connect_answer server with
  | Some e => throw e
  | None => ret tt
  end.

(** [ping]: -1 when the command does not answer ok, the elapsed time
    otherwise. *)
Definition ping (server : Server) : M Z :=
  match ping_answer server with
  | Return ok => if ok then ret (elapsed server) else ret (-1)
  | Throw e => throw e
  end.

(** Modelled from the spec: [cacheManager.createCache("Group", name)]
    belongs to the host application; it creates the named cache, empty. *)
Definition createCache (cacheName : string) : M unit :=
  put_cache cacheName ∅.

(** The inner loop of [load] and [loadCacheFromDB]: every document of one
    collection is put in the cache under its own key. *)
Fixpoint load_items (cacheName : string) (data : list doc) : M unit :=
  match data with
  | [] => ret tt
  | item :: rest =>
      cache_set cacheName (key item) (value_of item);;
      load_items cacheName rest
  end.

Fixpoint load_collections (table : string) (collections : list string)
  : M unit :=
  match collections with
  | [] => ret tt
  | name :: rest =>
      data ← col_find table name (fun _ => true);
      let cacheName := cacheName_of table in
      load_items cacheName data;;
      load_collections table rest
  end.

(** [try { ... } catch (err) { ...; process.exit(0) }] *)
Definition or_exit (body : M (list string)) : M startup :=
  fun st =>
    match body st with
    | (st', Return ts) => (st', Return (Ready ts))
    | (st', Throw _) => (st', Return (Exit 0))
    end.

(** *** [findOne] *)

(** [collection(query).findOne({}, ...)]: some document of the collection
    (the first one here), null when it has none. *)
Definition findOne (table query : string) : M (option doc) :=
  emit (ColFind table query);;
  db ← read_db table;
  mret (head (docs_of db query)).

(** ** [src/classes/Database.js] *)

Module DatabaseJs.

(** [let cacheKey = key; if (id) cacheKey = `${key}_${id}`;] *)
Definition cacheKey_of (key : string) (id : value) : string :=
  if truthy id then key +:+ "_" +:+ to_string id else key.

Definition get (this : Database) (table key : string) (id : value)
  : M get_result :=
  let cacheKey := cacheKey_of key id in
  let cacheName := cacheName_of table in
  cachedValue ← cache_get cacheName cacheKey;
  if decide (cachedValue = VUndefined) then
    if includes aoijs_vars key then
      data ← col_findOne table key cacheKey;
      match data with
      | Some d =>
          cache_set cacheName cacheKey (value_of d);;
          mret (RRecord cacheKey (value_of d))
      | None => mret (RRecord cacheKey VNull)
      end
    else
      if negb (vm_has (variableManager this) key table) then mret RUndefined
      else
        data ← col_findOne table key cacheKey;
        match data with
        | Some d =>
            cache_set cacheName cacheKey (value_of d);;
            mret (RRecord cacheKey (value_of d))
        | None =>
            let __var := vm_default (variableManager this) key table in
            cache_set cacheName cacheKey __var;;
            mret (RRecord cacheKey __var)
        end
  else mret (RRecord cacheKey cachedValue).

(** The body of [set] reads [cacheName], which the method does not
    declare ([table], [key], [id], [value] and [cacheKey] are its only
    names, and the module binds none called [cacheName]). *)
Definition set (this : Database) (table key : string) (id v : value)
  : M unit :=
  let cacheKey := cacheKey_of key id in
  let scope := [("table", table); ("key", key); ("cacheKey", cacheKey)] in
  cacheName ← identifier scope "cacheName";
  cache_set cacheName cacheKey v;;
  col_updateOne table key cacheKey v.

Definition drop (this : Database) (table : string)
    (variable : option string) : M unit :=
  let cacheName := cacheName_of table in
  match given variable with
  | Some v => col_drop table v
  | None => dropDatabase table
  end;;
  keys ← cache_keys cacheName;
  cache_delete_all cacheName keys.

(** The first loop of [deleteMany] goes over [cache.cache].  Under
    [debug], the method also reads [col] outside the loop that declares
    it. *)
Definition deleteMany (this : Database) (table : string)
    (query : delete_query) : M unit :=
  let cacheName := cacheName_of table in
  entries ← cache_cache cacheName;
  keys ← entry_keys entries;
  keysToDelete ← keysToDelete_loop this table query keys [];
  (if debug this then
     let scope := [("table", table); ("cacheName", cacheName)] in
     col ← identifier scope "col";
     col_find table col (store_selection query);; ret tt
   else ret tt);;
  cache_delete_all cacheName keysToDelete;;
  collections ← listCollections table;
  deleteMany_cols table query collections.

Fixpoint delete_loop (table dbkey cacheName : string)
    (collections : list string) : M unit :=
  match collections with
  | [] => ret tt
  | name :: rest =>
      doc ← col_findOne table name dbkey;
      match doc with
      | None => delete_loop table dbkey cacheName rest
      | Some _ =>
          col_deleteOne table name dbkey;;
          cache_delete cacheName dbkey
      end
  end.

Definition delete (this : Database) (table key : string) (id : value)
  : M unit :=
  let dbkey := cacheKey_of key id in
  let cacheName := cacheName_of table in
  collections ← listCollections table;
  delete_loop table dbkey cacheName collections.

(** [load] is the loop [loadCacheFromDB] of the second file; [connect]
    does not call it. *)
Definition load (this : Database) (table : string) : M unit :=
  collections ← listCollections table;
  load_collections table collections.

Fixpoint connect_caches (tables : list string) : M unit :=
  match tables with
  | [] => ret tt
  | table :: rest =>
      createCache (cacheName_of table);; connect_caches rest
  end.

(** [connect], up to the end of its [try]/[catch] (the conversion of old
    data that may follow is in a file outside these sources). *)
Definition connect (options : Options) (server : Server) : M startup :=
  or_exit (
    client_new server;;
    tables ← checked_tables options;
    client_connect server;;
    (if logging options then ping server;; ret tt else ret tt);;
    connect_caches tables;;
    ret tables).

End DatabaseJs.

(** ** The second source file *)

Module Part000.

(** [const cacheKey = `${key}_${id}`;] *)
Definition cacheKey_of (key : string) (id : value) : string :=
  key +:+ "_" +:+ to_string id.

Definition get (this : Database) (table key : string) (id : value)
  : M get_result :=
  let cacheKey := cacheKey_of key id in
  let cacheName := cacheName_of table in
  if includes aoijs_vars key then
    data ← col_findOne table key cacheKey;
    mret (match data with Some d => RDoc d | None => RNull end)
  else
    if negb (vm_has (variableManager this) key table) then mret RUndefined
    else
      let __var := vm_default (variableManager this) key table in
      cached ← cache_get cacheName cacheKey;
      let v := nullish_or cached __var in
      mret (RRecord cacheKey v).

Definition set (this : Database) (table key : string) (id v : value)
  : M unit :=
  let cacheKey := cacheKey_of key id in
  let cacheName := cacheName_of table in
  cache_set cacheName cacheKey v;;
  col_updateOne table key cacheKey v.

(** [caches] is the object the other methods index, not a function: the
    call [caches("Group", ...)] throws, after the collection or the
    database is dropped and with the cache as it was. *)
Definition drop (this : Database) (table : string)
    (variable : option string) : M unit :=
  match given variable with
  | Some v => col_drop table v
  | None => dropDatabase table
  end;;
  throw (TypeError "caches is not a function").

(** The first loop of [deleteMany] goes over [cache.cache]. *)
Definition deleteMany (this : Database) (table : string)
    (query : delete_query) : M unit :=
  let cacheName := cacheName_of table in
  entries ← cache_cache cacheName;
  keys ← entry_keys entries;
  keysToDelete ← keysToDelete_loop this table query keys [];
  cache_delete_all cacheName keysToDelete;;
  collections ← listCollections table;
  deleteMany_cols table query collections.

Fixpoint delete_loop (table dbkey cacheName : string)
    (collections : list string) : M unit :=
  match collections with
  | [] => ret tt
  | name :: rest =>
      doc ← col_findOne table name dbkey;
      match doc with
      | Some _ =>
          col_deleteOne table name dbkey;;
          cache_delete cacheName dbkey;;
          n ← col_countDocuments table name;
          if (n =? 0)%nat then col_drop table name else ret tt
      | None => delete_loop table dbkey cacheName rest
      end
  end.

Definition delete (this : Database) (table key : string) (id : value)
  : M unit :=
  collections ← listCollections table;
  let dbkey := cacheKey_of key id in
  let cacheName := cacheName_of table in
  delete_loop table dbkey cacheName collections.

Definition loadCacheFromDB (this : Database) (table : string) : M unit :=
  collections ← listCollections table;
  load_collections table collections.

Fixpoint connect_caches (this : Database) (tables : list string) : M unit :=
  match tables with
  | [] => ret tt
  | table :: rest =>
      createCache (cacheName_of table);;
      loadCacheFromDB this table;;
      connect_caches this rest
  end.

(** [connect], up to the end of its [try]/[catch]. *)
Definition connect (this : Database) (options : Options) (server : Server)
  : M startup :=
  or_exit (
    client_new server;;
    tables ← checked_tables options;
    client_connect server;;
    (if logging options then ping server;; ret tt else ret tt);;
    connect_caches this tables;;
    ret tables).

End Part000.

(** * The vocabulary of the statements *)

(** [steps P m]: from every state, [m] appends to the trace only calls
    that satisfy [P]. *)
Definition steps {A} (P : event -> Prop) (m : M A) : Prop :=
  forall st, exists evs,
    trace (m st).1 = (trace st ++ evs)%list /\ Forall P evs.

(** The key a call is made on, for the calls that take one. *)
Definition event_key (e : event) : option string :=
  match e with
  | CacheGet _ k | CacheSet _ k _ | CacheDelete _ k
  | ColFindOne _ _ k | ColUpdateOne _ _ k _ | ColDeleteOne _ _ k => Some k
  | _ => None
  end.

Definition on_key (k : string) (e : event) : Prop :=
  forall k', event_key e = Some k' -> k' = k.

(** The table's cache emptied, the store left as it is. *)
Definition clear_cache (table : string) (st : state) : state :=
  State (<[cacheName_of table := ∅]> (caches st)) (store st) (trace st).

(** The cache keys [deleteMany] evicts for a function [f]: the name before
    the first underscore is one the variable manager has for the table,
    with a defined default, and [f] accepts it. *)
Definition evicts (this : Database) (table : string) (f : string -> bool)
    (k : string) : bool :=
  vm_has (variableManager this) (split_head k) table
  && negb (bool_decide
             (vm_default (variableManager this) (split_head k) table
              = VUndefined))
  && f (split_head k).

(** A document whose value the comparators read as a number. *)
Definition numeric (d : doc) : Prop := is_Some (to_number (value_of d)).

Definition number_of (d : doc) : Z := default 0 (to_number (value_of d)).

Definition same_value (v : value) (d : doc) : bool :=
  bool_decide (value_of d = v).

(** The documents of a collection that a [findMany] query keeps. *)
Definition selected (query : find_query) (ds : collection) : list doc :=
  match query with
  | FQFunction f => List.filter f ds
  | FQFilter sel => List.filter sel ds
  end.

(** What [if (limit) data = data.slice(0, limit)] leaves of [data]. *)
Definition limited (limit : option Z) (data : list doc) : list doc :=
  match limit with
  | Some n => if negb (n =? 0) then slice0 data n else data
  | None => data
  end.

(** The database after [updateOne] with [upsert] on collection [col]: the
    upsert in the collection, or a new last collection with the one
    document. *)
Definition upserted (db : database) (col k : string) (v : value)
  : database :=
  match lookup_col db col with
  | Some _ => alter_col (upsert_doc k v) col db
  | None => (db ++ [(col, [Doc k v])])%list
  end.

(** The order [all] gives the collected documents for a sort argument:
    sorted for ["asc"] and ["desc"], as collected for anything else. *)
Definition ordered (order : string) (l : list doc) : list doc :=
  if String.eqb order "asc" then array_sort compare_asc l
  else if String.eqb order "desc" then array_sort compare_desc l
  else l.

(** A cache after the documents [data] were put in it one after the
    other, each under its own key. *)
Definition loaded (c : gmap string value) (data : list doc)
  : gmap string value :=
  foldl (fun m d => <[key d := value_of d]> m) c data.

(** The keys of the documents of a collection, in order. *)
Definition keys_of (ds : collection) : list string := map key ds.

(** ** Concrete objects used at the closed statements *)

Module Sample.

(** A registry that declares [money] in table [main], default 0. *)
Definition registry : VariableManager := {|
  vm_has := fun k t => String.eqb k "money" && String.eqb t "main";
  vm_default := fun k t =>
    if String.eqb k "money" && String.eqb t "main" then VNum 0
    else VUndefined
|}.

Definition quiet : Database :=
  {| debug := false; variableManager := registry |}.

Definition verbose : Database :=
  {| debug := true; variableManager := registry |}.

(** Table [main] with an empty cache and no collection. *)
Definition fresh : state := State {[ "c_main" := ∅ ]} ∅ [].

(** Table [main] with [money_1 = 5] cached and stored. *)
Definition warm : state :=
  State {[ "c_main" := {[ "money_1" := VNum 5 ]} ]}
        {[ "main" := [("money", [Doc "money_1" (VNum 5)])] ]} [].

(** Table [main] with a cache entry for the system key [cooldown_1] and
    no collection. *)
Definition cooling : state :=
  State {[ "c_main" := {[ "cooldown_1" := VNum 7 ]} ]} ∅ [].

(** The collections of the bulk example. *)
Definition two_collections : state :=
  State ∅ {[ "main" := [("A", [Doc "x" (VNum 1)]);
                        ("B", [Doc "y" (VNum 5)])] ]} [].

(** Two collections of two documents each. *)
Definition crowded : state :=
  State ∅ {[ "main" := [("A", [Doc "x" (VNum 1); Doc "x2" (VNum 2)]);
                        ("B", [Doc "y" (VNum 5); Doc "y2" (VNum 6)])] ]} [].

(** The same two collections, with an empty cache for the table. *)
Definition crowded_cached : state :=
  State {[ "c_main" := ∅ ]} (store crowded) [].

(** [v => v.value > 0] *)
Definition positive (d : doc) : bool :=
  match to_number (value_of d) with
  | Some n => 0 <? n
  | None => false
  end.

End Sample.

(** * Properties *)

(** Unfolding one method to the primitive steps on the state. *)
Ltac unfold_monad :=
  unfold mbind, M_bind, bind, mret, M_ret, ret, throw, emit,
    read_db, write_db, put_cache, with_cache in *.

Ltac unfold_prims :=
  unfold cache_get, cache_set, cache_delete, cache_keys, col_findOne,
    col_find, col_updateOne, col_deleteOne, col_deleteMany,
    col_countDocuments, col_drop, dropDatabase, listCollections,
    identifier in *.

Ltac run := unfold_prims; unfold_monad; simpl.

Arguments includes : simpl never.
Arguments cacheName_of : simpl never.
Arguments DatabaseJs.cacheKey_of : simpl never.
Arguments Part000.cacheKey_of : simpl never.

(** ** [set] in [src/classes/Database.js] *)

(** C2: in [src/classes/Database.js] every call of [set] throws a
    ReferenceError on the undeclared [cacheName] before the cache write and
    before the upsert: the caches, the store and the trace of calls are the
    ones it started from. *)
Theorem DatabaseJs_set_always_throws :
  forall (this : Database) (table key : string) (id v : value) (st : state),
    DatabaseJs.set this table key id v st
    = (st, Throw (ReferenceError "cacheName")).
Proof. intros. reflexivity. Qed.

(** ** [get] on keys the registry does not know, and on system keys *)

(** C10: for a key that is not a system key and that the variable manager
    does not have for the table, [get] returns nothing (it returns, it does
    not throw) and leaves the caches and the store as they were; in
    [src/classes/Database.js] this is the path taken when the table's cache
    has no entry for the composite key, in the second file the cache is not
    even read. *)
Theorem get_unknown_key_returns_nothing :
  forall (this : Database) (table key : string) (id : value) (st : state)
         (c : gmap string value),
    includes aoijs_vars key = false ->
    vm_has (variableManager this) key table = false ->
    caches st !! cacheName_of table = Some c ->
    c !! DatabaseJs.cacheKey_of key id = None ->
    (let r := DatabaseJs.get this table key id st in
     r.2 = Return RUndefined /\ caches r.1 = caches st
     /\ store r.1 = store st)
    /\ Part000.get this table key id st = (st, Return RUndefined).
Proof.
  intros this table key id st c Hsys Hhas Hc Hk. split.
  - unfold DatabaseJs.get. run. rewrite Hc. simpl. rewrite Hk. simpl.
    rewrite Hsys, Hhas. simpl. auto.
  - unfold Part000.get. rewrite Hsys, Hhas. reflexivity.
Qed.

Lemma get_unknown_key_returns_nothing_witness :
  (let r := DatabaseJs.get Sample.quiet "main" "level" (VStr "1") Sample.fresh in
   r.2 = Return RUndefined /\ caches r.1 = caches Sample.fresh
   /\ store r.1 = store Sample.fresh)
  /\ Part000.get Sample.quiet "main" "level" (VStr "1") Sample.fresh
     = (Sample.fresh, Return RUndefined).
Proof.
  apply (get_unknown_key_returns_nothing Sample.quiet "main" "level"
           (VStr "1") Sample.fresh ∅); reflexivity.
Defined.

(** C9, as stated, fails on the second file: for the system key [cooldown],
    with no cache entry and no document, its [get] returns the store's
    null, not the record [{key: "cooldown_1", value: null}]. *)
Lemma get_system_miss_second_file_is_null :
  includes aoijs_vars "cooldown" = true
  /\ caches Sample.fresh !! cacheName_of "main" = Some ∅
  /\ List.find (has_key "cooldown_1")
       (docs_of (db_of Sample.fresh "main") "cooldown") = None
  /\ (Part000.get Sample.quiet "main" "cooldown" (VStr "1") Sample.fresh).2
     = Return RNull
  /\ (Part000.get Sample.quiet "main" "cooldown" (VStr "1") Sample.fresh).2
     <> Return (RRecord "cooldown_1" VNull).
Proof. repeat split; try reflexivity. vm_compute. discriminate. Qed.

(** C9, amended: for a system key whose collection holds no document for
    the composite key, [get] of [src/classes/Database.js], when the table's
    cache has no entry either, returns [{key: compositeKey, value: null}];
    [get] of the second file returns null (what the store answered).
    Neither consults the variable manager, and neither changes the caches
    or the store. *)
Theorem get_system_key_miss :
  forall (this : Database) (table key : string) (id : value) (st : state),
    includes aoijs_vars key = true ->
    (forall c : gmap string value,
        caches st !! cacheName_of table = Some c ->
        c !! DatabaseJs.cacheKey_of key id = None ->
        List.find (has_key (DatabaseJs.cacheKey_of key id))
          (docs_of (db_of st table) key) = None ->
        let r := DatabaseJs.get this table key id st in
        r.2 = Return (RRecord (DatabaseJs.cacheKey_of key id) VNull)
        /\ caches r.1 = caches st /\ store r.1 = store st)
    /\ (List.find (has_key (Part000.cacheKey_of key id))
          (docs_of (db_of st table) key) = None ->
        let r := Part000.get this table key id st in
        r.2 = Return RNull
        /\ caches r.1 = caches st /\ store r.1 = store st).
Proof.
  intros this table key id st Hsys. split.
  - intros c Hc Hk Hdoc. unfold DatabaseJs.get. rewrite Hsys. run.
    rewrite Hc. simpl. rewrite Hk. simpl.
    unfold db_of in Hdoc |- *. simpl. rewrite Hdoc. simpl. auto.
  - intros Hdoc. unfold Part000.get. rewrite Hsys. run.
    unfold db_of in Hdoc |- *. simpl. rewrite Hdoc. simpl. auto.
Qed.

Lemma get_system_key_miss_witness :
  (let r := DatabaseJs.get Sample.quiet "main" "cooldown" (VStr "1")
              Sample.fresh in
   r.2 = Return (RRecord "cooldown_1" VNull)
   /\ caches r.1 = caches Sample.fresh /\ store r.1 = store Sample.fresh)
  /\ (let r := Part000.get Sample.quiet "main" "cooldown" (VStr "1")
                 Sample.fresh in
      r.2 = Return RNull
      /\ caches r.1 = caches Sample.fresh /\ store r.1 = store Sample.fresh).
Proof.
  destruct (get_system_key_miss Sample.quiet "main" "cooldown" (VStr "1")
              Sample.fresh eq_refl) as [HA HB].
  split.
  - apply (HA ∅); reflexivity.
  - apply HB; reflexivity.
Defined.

(** ** The calls a method makes *)

Section Steps.
Context (P : event -> Prop).

Lemma steps_ret {A} (a : A) : steps P (ret a).
Proof. intros st. exists []. simpl. by rewrite app_nil_r. Qed.

Lemma steps_throw {A} (e : js_error) : steps P (throw (A:=A) e).
Proof. intros st. exists []. simpl. by rewrite app_nil_r. Qed.

Lemma steps_bind {A B} (m : M A) (f : A -> M B) :
  steps P m -> (forall a, steps P (f a)) -> steps P (bind m f).
Proof.
  intros Hm Hf st. destruct (Hm st) as (evs & Htr & Hevs).
  unfold bind. destruct (m st) as [st1 [a|e]]; simpl in *.
  - destruct (Hf a st1) as (evs' & Htr' & Hevs').
    exists (evs ++ evs')%list. rewrite Htr', Htr, app_assoc.
    split; [done | by apply Forall_app].
  - by exists evs.
Qed.

Lemma steps_emit (e : event) : P e -> steps P (emit e).
Proof. intros He st. exists [e]. simpl. split; [done | by constructor]. Qed.

Lemma steps_read_db table : steps P (read_db table).
Proof. intros st. exists []. simpl. by rewrite app_nil_r. Qed.

Lemma steps_write_db table db : steps P (write_db table db).
Proof. intros st. exists []. simpl. by rewrite app_nil_r. Qed.

Lemma steps_put_cache cn c : steps P (put_cache cn c).
Proof. intros st. exists []. simpl. by rewrite app_nil_r. Qed.

Lemma steps_with_cache {A} cn (f : gmap string value -> M A) :
  (forall c, steps P (f c)) -> steps P (with_cache cn f).
Proof.
  intros Hf st. unfold with_cache.
  destruct (caches st !! cn) as [c|]; [apply Hf |].
  exists []. simpl. by rewrite app_nil_r.
Qed.
End Steps.

(** Splits a method into its calls, leaving one goal per call. *)
Ltac step :=
  repeat first
    [ apply steps_ret | apply steps_throw | apply steps_read_db
    | apply steps_write_db | apply steps_put_cache
    | apply steps_bind; [| intros ?]
    | apply steps_with_cache; intros ?
    | apply steps_emit
    | match goal with
      | |- steps _ (match ?x with _ => _ end) => destruct x
      | |- steps _ (if ?x then _ else _) => destruct x
      end ].

Lemma find_has_key k ds d : List.find (has_key k) ds = Some d -> key d = k.
Proof.
  intros H. apply find_some in H as [_ H]. unfold has_key in H.
  by apply String.eqb_eq in H.
Qed.

Lemma DatabaseJs_get_on_key this table key id :
  steps (on_key (DatabaseJs.cacheKey_of key id))
        (DatabaseJs.get this table key id).
Proof.
  unfold DatabaseJs.get. unfold_prims. unfold mbind, M_bind, mret, M_ret.
  step; intros k' [= <-]; done.
Qed.

Lemma DatabaseJs_delete_loop_on_key table dbkey cacheName collections :
  steps (on_key dbkey)
        (DatabaseJs.delete_loop table dbkey cacheName collections).
Proof.
  induction collections as [|name rest IH]; simpl.
  - apply steps_ret.
  - unfold_prims. unfold mbind, M_bind, mret, M_ret.
    step; try apply IH; intros k' [= <-]; done.
Qed.

Lemma DatabaseJs_delete_on_key this table key id :
  steps (on_key (DatabaseJs.cacheKey_of key id))
        (DatabaseJs.delete this table key id).
Proof.
  unfold DatabaseJs.delete, listCollections.
  unfold mbind, M_bind, mret, M_ret.
  step; try apply DatabaseJs_delete_loop_on_key; intros k' [=].
Qed.

Lemma Part000_get_on_key this table key id :
  steps (on_key (Part000.cacheKey_of key id))
        (Part000.get this table key id).
Proof.
  unfold Part000.get. unfold_prims. unfold mbind, M_bind, mret, M_ret.
  step; intros k' [= <-]; done.
Qed.

Lemma Part000_set_on_key this table key id v :
  steps (on_key (Part000.cacheKey_of key id))
        (Part000.set this table key id v).
Proof.
  unfold Part000.set. unfold_prims. unfold mbind, M_bind, mret, M_ret.
  step; intros k' [= <-]; done.
Qed.

Lemma Part000_delete_loop_on_key table dbkey cacheName collections :
  steps (on_key dbkey)
        (Part000.delete_loop table dbkey cacheName collections).
Proof.
  induction collections as [|name rest IH]; simpl.
  - apply steps_ret.
  - unfold_prims. unfold mbind, M_bind, mret, M_ret.
    step; try apply IH; intros k' [=]; subst; done.
Qed.

Lemma Part000_delete_on_key this table key id :
  steps (on_key (Part000.cacheKey_of key id))
        (Part000.delete this table key id).
Proof.
  unfold Part000.delete, listCollections.
  unfold mbind, M_bind, mret, M_ret.
  step; try apply Part000_delete_loop_on_key; intros k' [=].
Qed.

(** The record [get] returns carries the composite key. *)
Lemma DatabaseJs_get_result_key this table key id st r k :
  (DatabaseJs.get this table key id st).2 = Return r ->
  result_key r = Some k -> k = DatabaseJs.cacheKey_of key id.
Proof.
  unfold DatabaseJs.get. run.
  destruct (caches st !! cacheName_of table) as [c|]; simpl; [|done].
  repeat (case_match; simpl in * ); intros [= <-]; simpl; congruence.
Qed.

Lemma Part000_get_result_key this table key id st r k :
  (Part000.get this table key id st).2 = Return r ->
  result_key r = Some k -> k = Part000.cacheKey_of key id.
Proof.
  unfold Part000.get. run.
  repeat (case_match; simpl in * ); intros [= <-]; simpl; try congruence.
  intros [= <-]. eauto using find_has_key.
Qed.

(** ** The composite key *)

(** C3, as stated, fails on the second file: with the id absent its [get]
    and [set] work on ["money_undefined"], not on the key alone. *)
Lemma composite_key_second_file_absent_id :
  truthy VUndefined = false
  /\ (Part000.get Sample.quiet "main" "money" VUndefined Sample.fresh).2
     = Return (RRecord "money_undefined" (VNum 0))
  /\ trace (Part000.set Sample.quiet "main" "money" VUndefined (VNum 5)
              Sample.fresh).1
     = [CacheSet "c_main" "money_undefined" (VNum 5);
        ColUpdateOne "main" "money" "money_undefined" (VNum 5)]
  /\ "money_undefined" <> "money".
Proof. repeat split; try reflexivity. discriminate. Qed.

(** C3, amended: each file applies one rule to every call it makes on the
    cache and on the store and to the record [get] returns, but the two
    files differ.  In [src/classes/Database.js] the composite key is the
    key alone when the id is falsy and [key + "_" + id] otherwise ([get]
    and [delete]; [set] throws before it makes any call).  In the second
    file [get], [set] and [delete] always use [key + "_" + id], the id
    being turned into a string even when it is absent. *)
Theorem composite_key_rule :
  forall (this : Database) (table key : string) (id v : value),
    (DatabaseJs.cacheKey_of key id
     = if truthy id then key +:+ "_" +:+ to_string id else key)
    /\ steps (on_key (DatabaseJs.cacheKey_of key id))
         (DatabaseJs.get this table key id)
    /\ steps (on_key (DatabaseJs.cacheKey_of key id))
         (DatabaseJs.delete this table key id)
    /\ steps (fun _ => False) (DatabaseJs.set this table key id v)
    /\ (forall st r k,
          (DatabaseJs.get this table key id st).2 = Return r ->
          result_key r = Some k -> k = DatabaseJs.cacheKey_of key id)
    /\ Part000.cacheKey_of key id = key +:+ "_" +:+ to_string id
    /\ steps (on_key (Part000.cacheKey_of key id))
         (Part000.get this table key id)
    /\ steps (on_key (Part000.cacheKey_of key id))
         (Part000.set this table key id v)
    /\ steps (on_key (Part000.cacheKey_of key id))
         (Part000.delete this table key id)
    /\ (forall st r k,
          (Part000.get this table key id st).2 = Return r ->
          result_key r = Some k -> k = Part000.cacheKey_of key id).
Proof.
  intros this table key id v.
  split; [reflexivity |].
  split; [apply DatabaseJs_get_on_key |].
  split; [apply DatabaseJs_delete_on_key |].
  split; [intros st; exists []; simpl; by rewrite app_nil_r |].
  split; [intros st r k; apply DatabaseJs_get_result_key |].
  split; [reflexivity |].
  split; [apply Part000_get_on_key |].
  split; [apply Part000_set_on_key |].
  split; [apply Part000_delete_on_key |].
  intros st r k; apply Part000_get_result_key.
Qed.

Lemma composite_key_rule_witness :
  DatabaseJs.cacheKey_of "money" VUndefined = "money"
  /\ DatabaseJs.cacheKey_of "money" (VStr "1") = "money_1"
  /\ Part000.cacheKey_of "money" VUndefined = "money_undefined"
  /\ (forall k,
        result_key (RRecord "money" (VNum 0)) = Some k ->
        k = DatabaseJs.cacheKey_of "money" VUndefined)
  /\ (forall k,
        result_key (RRecord "money_undefined" (VNum 0)) = Some k ->
        k = Part000.cacheKey_of "money" VUndefined).
Proof.
  destruct (composite_key_rule Sample.quiet "main" "money" VUndefined
              (VNum 5)) as (HA & _ & _ & _ & HrA & HB & _ & _ & _ & HrB).
  destruct (composite_key_rule Sample.quiet "main" "money" (VStr "1")
              (VNum 5)) as (HA1 & _).
  split; [exact HA |]. split; [exact HA1 |]. split; [exact HB |]. split.
  - intros k. apply (HrA Sample.fresh). reflexivity.
  - intros k. apply (HrB Sample.fresh). reflexivity.
Defined.

(** ** What [get] reads and writes *)

(** In both files a [get] reads at most one collection, writes the cache
    at most once, and never writes to the store. *)
Lemma DatabaseJs_get_footprint this table key id st :
  exists evs,
    trace (DatabaseJs.get this table key id st).1 = (trace st ++ evs)%list
    /\ (count_events is_store_read evs <= 1)%nat
    /\ (count_events is_cache_write evs <= 1)%nat
    /\ count_events is_store_write evs = 0%nat
    /\ store (DatabaseJs.get this table key id st).1 = store st.
Proof.
  unfold DatabaseJs.get. run.
  destruct (caches st !! cacheName_of table) as [c|] eqn:Hc; simpl.
  2:{ exists []. rewrite app_nil_r. simpl. auto with lia. }
  repeat (case_match; simpl in * ); simplify_map_eq;
    (eexists; split;
     [rewrite <- ?app_assoc; reflexivity | cbn; auto with lia]).
Qed.

Lemma Part000_get_footprint this table key id st :
  exists evs,
    trace (Part000.get this table key id st).1 = (trace st ++ evs)%list
    /\ (count_events is_store_read evs <= 1)%nat
    /\ count_events is_cache_write evs = 0%nat
    /\ count_events is_store_write evs = 0%nat
    /\ store (Part000.get this table key id st).1 = store st.
Proof.
  unfold Part000.get. run.
  repeat (case_match; simpl in * ); simplify_map_eq;
    (eexists; split;
     [rewrite <- ?app_assoc; first [reflexivity | symmetry; apply app_nil_r]
     | cbn; auto with lia]).
Qed.

(** C5, as stated, fails on the second file: for the system key [cooldown]
    its [get] does not look at the cache entry the table holds for the
    composite key; it reads the collection and returns what the store
    answers (here null). *)
Lemma get_second_file_system_key_reads_store :
  (exists c : gmap string value,
      caches Sample.cooling !! cacheName_of "main" = Some c
      /\ c !! Part000.cacheKey_of "cooldown" (VStr "1") = Some (VNum 7))
  /\ (Part000.get Sample.quiet "main" "cooldown" (VStr "1")
        Sample.cooling).2 = Return RNull
  /\ trace (Part000.get Sample.quiet "main" "cooldown" (VStr "1")
              Sample.cooling).1
     = [ColFindOne "main" "cooldown" "cooldown_1"].
Proof.
  split; [| split; reflexivity].
  exists {[ "cooldown_1" := VNum 7 ]}. split; reflexivity.
Qed.

(** C5, amended.  In [src/classes/Database.js], when the table's cache
    holds a defined value for the composite key, [get] returns it in a
    record after the one cache read and makes no call to the store.  In
    the second file [get] reads the cache only for a key the variable
    manager has and that is not a system key: it returns the cached value
    when that is neither null nor undefined, without a call to the store;
    for a system key it reads the collection whatever the cache holds.  In
    both files a [get] reads at most one collection, writes the cache at
    most once and never writes to the store. *)
Theorem get_cache_hit_and_footprint :
  forall (this : Database) (table key : string) (id : value) (st : state),
    (forall (c : gmap string value) (v : value),
        caches st !! cacheName_of table = Some c ->
        c !! DatabaseJs.cacheKey_of key id = Some v ->
        v <> VUndefined ->
        DatabaseJs.get this table key id st
        = (State (caches st) (store st)
             (trace st ++ [CacheGet (cacheName_of table)
                             (DatabaseJs.cacheKey_of key id)]),
           Return (RRecord (DatabaseJs.cacheKey_of key id) v)))
    /\ (forall (c : gmap string value) (v : value),
        includes aoijs_vars key = false ->
        vm_has (variableManager this) key table = true ->
        caches st !! cacheName_of table = Some c ->
        c !! Part000.cacheKey_of key id = Some v ->
        v <> VUndefined -> v <> VNull ->
        Part000.get this table key id st
        = (State (caches st) (store st)
             (trace st ++ [CacheGet (cacheName_of table)
                             (Part000.cacheKey_of key id)]),
           Return (RRecord (Part000.cacheKey_of key id) v)))
    /\ (includes aoijs_vars key = true ->
        trace (Part000.get this table key id st).1
        = (trace st ++ [ColFindOne table key (Part000.cacheKey_of key id)])%list)
    /\ (exists evs,
          trace (DatabaseJs.get this table key id st).1 = (trace st ++ evs)%list
          /\ (count_events is_store_read evs <= 1)%nat
          /\ (count_events is_cache_write evs <= 1)%nat
          /\ count_events is_store_write evs = 0%nat
          /\ store (DatabaseJs.get this table key id st).1 = store st)
    /\ (exists evs,
          trace (Part000.get this table key id st).1 = (trace st ++ evs)%list
          /\ (count_events is_store_read evs <= 1)%nat
          /\ (count_events is_cache_write evs <= 1)%nat
          /\ count_events is_store_write evs = 0%nat
          /\ store (Part000.get this table key id st).1 = store st).
Proof.
  intros this table key id st. repeat split.
  - intros c v Hc Hv Hdef. unfold DatabaseJs.get. run.
    rewrite Hc. simpl. rewrite Hv. simpl.
    destruct (decide (v = VUndefined)); [done | reflexivity].
  - intros c v Hsys Hhas Hc Hv Hdef Hnull. unfold Part000.get.
    rewrite Hsys, Hhas. run. rewrite Hc. simpl. rewrite Hv. simpl.
    destruct v; done.
  - intros Hsys. unfold Part000.get. rewrite Hsys. reflexivity.
  - apply DatabaseJs_get_footprint.
  - destruct (Part000_get_footprint this table key id st)
      as (evs & ? & ? & Hw & ? & ?).
    exists evs. rewrite Hw. auto with lia.
Qed.

Lemma get_cache_hit_and_footprint_witness :
  DatabaseJs.get Sample.quiet "main" "money" (VStr "1") Sample.warm
  = (State (caches Sample.warm) (store Sample.warm)
       [CacheGet "c_main" "money_1"],
     Return (RRecord "money_1" (VNum 5)))
  /\ Part000.get Sample.quiet "main" "money" (VStr "1") Sample.warm
     = (State (caches Sample.warm) (store Sample.warm)
          [CacheGet "c_main" "money_1"],
        Return (RRecord "money_1" (VNum 5)))
  /\ trace (Part000.get Sample.quiet "main" "cooldown" (VStr "1")
              Sample.cooling).1
     = [ColFindOne "main" "cooldown" "cooldown_1"].
Proof.
  destruct (get_cache_hit_and_footprint Sample.quiet "main" "money"
              (VStr "1") Sample.warm) as (HA & HB & _).
  destruct (get_cache_hit_and_footprint Sample.quiet "main" "cooldown"
              (VStr "1") Sample.cooling) as (_ & _ & HC & _).
  split; [| split].
  - apply (HA {[ "money_1" := VNum 5 ]} (VNum 5)); [reflexivity .. | discriminate].
  - apply (HB {[ "money_1" := VNum 5 ]} (VNum 5));
      [reflexivity .. | discriminate | discriminate].
  - apply HC. reflexivity.
Defined.

(** ** Reading after writing *)

Lemma find_upsert_doc k v ds :
  List.find (has_key k) (upsert_doc k v ds) = Some (Doc k v).
Proof.
  induction ds as [|d rest IH]; simpl.
  - unfold has_key. simpl. by rewrite String.eqb_refl.
  - destruct (has_key k d) eqn:Hd; simpl.
    + unfold has_key in *. simpl. rewrite Hd.
      apply String.eqb_eq in Hd. by rewrite Hd.
    + by rewrite Hd.
Qed.

Lemma lookup_col_alter f col db ds :
  lookup_col db col = Some ds ->
  lookup_col (alter_col f col db) col = Some (f ds).
Proof.
  unfold lookup_col. induction db as [|[n ds'] rest IH]; simpl; [done |].
  destruct (String.eqb n col) eqn:Hn; simpl; rewrite Hn; simpl.
  - by intros [= ->].
  - apply IH.
Qed.

Lemma lookup_col_app_new col db ds :
  lookup_col db col = None ->
  lookup_col (db ++ [(col, ds)])%list col = Some ds.
Proof.
  unfold lookup_col. induction db as [|[n ds'] rest IH]; simpl.
  - by rewrite String.eqb_refl.
  - destruct (String.eqb n col) eqn:Hn; simpl; [done | apply IH].
Qed.

(** After the upsert the collection answers [{key: k}] with the written
    value. *)
Lemma col_updateOne_then_find table col k v st :
  let st1 := (col_updateOne table col k v st).1 in
  (col_updateOne table col k v st).2 = Return tt
  /\ caches st1 = caches st
  /\ List.find (has_key k) (docs_of (db_of st1 table) col)
     = Some (Doc k (bson_value v)).
Proof.
  unfold col_updateOne. run.
  destruct (lookup_col (db_of _ table) col) as [ds|] eqn:Hcol; simpl;
    unfold db_of in *; simpl in *; rewrite lookup_insert_eq; simpl;
    unfold docs_of.
  - erewrite lookup_col_alter by exact Hcol. simpl.
    auto using find_upsert_doc.
  - rewrite lookup_col_app_new by exact Hcol. simpl.
    unfold has_key. simpl. by rewrite String.eqb_refl.
Qed.

Lemma Part000_set_state this table key id v st c :
  caches st !! cacheName_of table = Some c ->
  let k := Part000.cacheKey_of key id in
  let st1 := (Part000.set this table key id v st).1 in
  (Part000.set this table key id v st).2 = Return tt
  /\ caches st1 = <[cacheName_of table := <[k := v]> c]> (caches st)
  /\ List.find (has_key k) (docs_of (db_of st1 table) key)
     = Some (Doc k (bson_value v)).
Proof.
  intros Hc k st1.
  set (st0 := State (<[cacheName_of table := <[k := v]> c]> (caches st))
                (store st)
                (trace st ++ [CacheSet (cacheName_of table) k v])).
  assert (Hset : Part000.set this table key id v st
                 = col_updateOne table key k v st0).
  { unfold Part000.set, cache_set. unfold_monad. by rewrite Hc. }
  subst st1. rewrite Hset.
  destruct (col_updateOne_then_find table key k v st0) as (Hr & Hcs & Hf).
  by rewrite Hr, Hcs, Hf.
Qed.

(** C1, as stated, fails in both files.  In the second file, after
    [set("main", "money", "1", 5)] has written the cache and the store, a
    [get] with the cache cleared does not read the store: it returns the
    registry default 0.  In [src/classes/Database.js] the [set] throws. *)
Lemma read_after_write_lost_without_cache :
  let st1 := (Part000.set Sample.quiet "main" "money" (VStr "1") (VNum 5)
                Sample.fresh).1 in
  (Part000.set Sample.quiet "main" "money" (VStr "1") (VNum 5)
     Sample.fresh).2 = Return tt
  /\ docs_of (db_of st1 "main") "money" = [Doc "money_1" (VNum 5)]
  /\ (Part000.get Sample.quiet "main" "money" (VStr "1")
        (clear_cache "main" st1)).2 = Return (RRecord "money_1" (VNum 0))
  /\ (DatabaseJs.set Sample.quiet "main" "money" (VStr "1") (VNum 5)
        Sample.fresh).2 = Throw (ReferenceError "cacheName").
Proof. repeat split; reflexivity. Qed.

(** C1, amended, on the second file (the [set] of
    [src/classes/Database.js] is left out).  With the table's cache in
    place, [set] returns after writing the cache and upserting the
    document, and a following [get]
    - for a system key returns the stored document with the written value
      (an undefined value is stored as null), at once and also after the
      cache is cleared;
    - for a key that is not a system key and that the variable manager has
      for the table returns at once the written value when it is neither
      null nor undefined (the registry default otherwise), and the registry
      default once the cache is cleared, since it never reads the store;
    - for any other key returns nothing. *)
Theorem read_after_write_second_file :
  forall (this : Database) (table key : string) (id v : value) (st : state)
         (c : gmap string value),
    caches st !! cacheName_of table = Some c ->
    let k := Part000.cacheKey_of key id in
    let dflt := vm_default (variableManager this) key table in
    let st1 := (Part000.set this table key id v st).1 in
    (Part000.set this table key id v st).2 = Return tt
    /\ (includes aoijs_vars key = true ->
        (Part000.get this table key id st1).2
        = Return (RDoc (Doc k (bson_value v)))
        /\ (Part000.get this table key id (clear_cache table st1)).2
           = Return (RDoc (Doc k (bson_value v))))
    /\ (includes aoijs_vars key = false ->
        vm_has (variableManager this) key table = true ->
        (Part000.get this table key id st1).2
        = Return (RRecord k (nullish_or v dflt))
        /\ (v <> VUndefined -> v <> VNull ->
            (Part000.get this table key id st1).2 = Return (RRecord k v))
        /\ (Part000.get this table key id (clear_cache table st1)).2
           = Return (RRecord k dflt))
    /\ (includes aoijs_vars key = false ->
        vm_has (variableManager this) key table = false ->
        (Part000.get this table key id st1).2 = Return RUndefined
        /\ (Part000.get this table key id (clear_cache table st1)).2
           = Return RUndefined).
Proof.
  intros this table key id v st c Hc k dflt st1.
  destruct (Part000_set_state this table key id v st c Hc)
    as (Hret & Hcache & Hfind).
  fold k st1 in Hcache, Hfind.
  split; [exact Hret |]. split; [| split].
  - intros Hsys. unfold Part000.get. rewrite Hsys. fold k. run.
    unfold db_of in *. simpl. by rewrite Hfind.
  - intros Hsys Hhas.
    assert (Hnow : (Part000.get this table key id st1).2
                   = Return (RRecord k (nullish_or v dflt))).
    { unfold Part000.get. rewrite Hsys, Hhas. fold k. run.
      rewrite Hcache, lookup_insert_eq. simpl.
      by rewrite lookup_insert_eq. }
    split; [exact Hnow |]. split.
    + intros Hu Hn. rewrite Hnow. by destruct v.
    + unfold Part000.get. rewrite Hsys, Hhas. fold k. run.
      by rewrite lookup_insert_eq.
  - intros Hsys Hhas. unfold Part000.get. by rewrite Hsys, Hhas.
Qed.

Lemma read_after_write_second_file_witness :
  let st1 := (Part000.set Sample.quiet "main" "money" (VStr "1") (VNum 5)
                Sample.fresh).1 in
  (Part000.set Sample.quiet "main" "money" (VStr "1") (VNum 5)
     Sample.fresh).2 = Return tt
  /\ (Part000.get Sample.quiet "main" "money" (VStr "1") st1).2
     = Return (RRecord "money_1" (VNum 5))
  /\ (Part000.get Sample.quiet "main" "money" (VStr "1")
        (clear_cache "main" st1)).2 = Return (RRecord "money_1" (VNum 0)).
Proof.
  destruct (read_after_write_second_file Sample.quiet "main" "money"
              (VStr "1") (VNum 5) Sample.fresh ∅ eq_refl)
    as (Hret & _ & Hdecl & _).
  destruct (Hdecl eq_refl eq_refl) as (_ & Hnow & Hcleared).
  split; [exact Hret |]. split; [| exact Hcleared].
  apply Hnow; discriminate.
Defined.

(** ** Dropping a table *)

(** Deleting keys one by one from a cache that exists. *)
Lemma cache_delete_all_spec cn keys :
  forall st c,
    caches st !! cn = Some c ->
    cache_delete_all cn keys st
    = (State (<[cn := foldr base.delete c keys]> (caches st)) (store st)
         (trace st ++ map (CacheDelete cn) keys),
       Return tt).
Proof.
  induction keys as [|k rest IH]; intros st c Hc; simpl.
  - rewrite app_nil_r, insert_id by done. by destruct st.
  - unfold cache_delete. unfold_monad. rewrite Hc. simpl.
    rewrite (IH _ (base.delete k c)) by (simpl; apply lookup_insert_eq).
    simpl. rewrite insert_insert_eq, <- app_assoc. simpl.
    by rewrite delete_foldr_delete.
Qed.

Lemma foldr_delete_all_keys (c : gmap string value) :
  foldr base.delete c (map fst (map_to_list c)) = ∅.
Proof.
  apply map_eq. intros k. rewrite lookup_empty.
  destruct (c !! k) as [v|] eqn:Hk.
  - apply lookup_foldr_delete. apply list_elem_of_fmap.
    exists (k, v). split; [done | by apply elem_of_map_to_list].
  - rewrite lookup_foldr_delete_not_elem_of; [done |].
    intros Hin. apply list_elem_of_fmap in Hin as [[k' v] [-> Hin]].
    apply elem_of_map_to_list in Hin. simpl in Hk. congruence.
Qed.

(** In [src/classes/Database.js], [drop(table)] without a collection name
    empties the database and the table's whole cache. *)
Lemma DatabaseJs_drop_table_clears_cache this table st c :
  caches st !! cacheName_of table = Some c ->
  let r := DatabaseJs.drop this table None st in
  r.2 = Return tt
  /\ caches r.1 = <[cacheName_of table := ∅]> (caches st)
  /\ db_of r.1 table = [].
Proof.
  intros Hc. unfold DatabaseJs.drop. simpl.
  unfold dropDatabase, cache_keys. unfold_monad. simpl. rewrite Hc.
  rewrite (cache_delete_all_spec _ _ _ c) by done. simpl.
  rewrite foldr_delete_all_keys. unfold db_of. simpl.
  by rewrite lookup_insert_eq.
Qed.

(** After it, a [get] of [src/classes/Database.js] resolves again from the
    empty database: null for a system key, the registry default for a key
    the variable manager has, nothing for any other key. *)
Lemma DatabaseJs_get_after_drop_table this table st c key id :
  caches st !! cacheName_of table = Some c ->
  let st1 := (DatabaseJs.drop this table None st).1 in
  let k := DatabaseJs.cacheKey_of key id in
  (DatabaseJs.get this table key id st1).2
  = Return (if includes aoijs_vars key then RRecord k VNull
            else if vm_has (variableManager this) key table
                 then RRecord k (vm_default (variableManager this) key table)
                 else RUndefined).
Proof.
  intros Hc st1 k.
  destruct (DatabaseJs_drop_table_clears_cache this table st c Hc)
    as (_ & Hcache & Hdb). fold st1 in Hcache, Hdb.
  unfold DatabaseJs.get. fold k. run.
  rewrite Hcache, lookup_insert_eq. simpl. rewrite lookup_empty. simpl.
  unfold db_of in Hdb.
  destruct (includes aoijs_vars key); simpl.
  - unfold db_of. simpl. by rewrite Hdb.
  - destruct (vm_has _ key table); simpl; [| done].
    unfold db_of. simpl. rewrite Hdb. simpl.
    by rewrite lookup_insert_eq.
Qed.

(** C4 fails on the second file.  Its [drop] ends on the call
    [caches("Group", ...)], which throws once the collection or the
    database is gone, and for every table and state it leaves the caches as
    they were.  With [money_1 = 5] cached, [drop("main")] empties the
    database and the following [get] still answers 5, the stale cached
    value, where the registry default is 0. *)
Theorem drop_second_file_leaves_cache :
  (forall (this : Database) (table : string) (variable : option string)
          (st : state),
      caches (Part000.drop this table variable st).1 = caches st
      /\ exists e, (Part000.drop this table variable st).2 = Throw e)
  /\ (let st1 := (Part000.drop Sample.quiet "main" None Sample.warm).1 in
      db_of st1 "main" = []
      /\ (Part000.get Sample.quiet "main" "money" (VStr "1") st1).2
         = Return (RRecord "money_1" (VNum 5))
      /\ vm_default Sample.registry "money" "main" = VNum 0).
Proof.
  split.
  - intros this table variable st. unfold Part000.drop. run.
    destruct (given variable) as [v|]; simpl; [| eauto].
    destruct (lookup_col _ v); simpl; eauto.
  - repeat split; reflexivity.
Qed.

(** ** [deleteMany] *)

(** Run on a list of cache keys, the first loop of [deleteMany] collects
    exactly the keys [evicts] selects. *)
Lemma keysToDelete_loop_function this table f sel keys :
  forall acc st,
    keysToDelete_loop this table (DQFunction f sel) keys acc st
    = (st, Return (acc ++ List.filter (evicts this table f) keys)%list).
Proof.
  induction keys as [|k rest IH]; intros acc st; simpl.
  - by rewrite app_nil_r.
  - unfold evicts at 1.
    destruct (vm_has _ (split_head k) table); simpl; [| apply IH].
    destruct (decide (_ = VUndefined)) as [Hu|Hu].
    + rewrite bool_decide_eq_true_2 by done. simpl. apply IH.
    + rewrite bool_decide_eq_false_2 by done. simpl.
      unfold_monad. simpl. rewrite IH.
      destruct (f (split_head k)); [by rewrite <- app_assoc | done].
Qed.

(** The first loop only reads: it leaves the state as it found it, also
    when the call of [query] throws. *)
Lemma keysToDelete_loop_state this table query keys :
  forall acc st, (keysToDelete_loop this table query keys acc st).1 = st.
Proof.
  induction keys as [|k rest IH]; intros acc st; simpl; [done |].
  destruct (vm_has _ (split_head k) table); [| apply IH].
  destruct (decide (_ = VUndefined)); [apply IH |].
  unfold_monad. destruct query; simpl; [apply IH .. | done].
Qed.

(** The last loop issues one [deleteMany] on every collection it is
    given. *)
Lemma deleteMany_cols_spec table query names :
  forall st,
    let r := deleteMany_cols table query names st in
    r.2 = Return tt /\ caches r.1 = caches st
    /\ trace r.1 = (trace st ++ map (ColDeleteMany table) names)%list.
Proof.
  induction names as [|n rest IH]; intros st; simpl.
  - by rewrite app_nil_r.
  - unfold col_deleteMany. unfold_monad. simpl.
    match goal with |- context [deleteMany_cols _ _ _ ?s] =>
      destruct (IH s) as (Hr & Hc & Ht) end.
    simpl in *. rewrite Hr, Hc, Ht, <- app_assoc. done.
Qed.

(** C6 fails on both files, for every table, query and state.  The first
    loop of [deleteMany] iterates [cache.cache]; the cache has no such
    member, the loop throws a TypeError where it starts, and the method
    ends there with the state as it was: no key is collected, nothing is
    evicted and no collection is asked to delete.  With [money_1 = 5]
    cached and stored, and a function that accepts every name, the entry
    the claim says is evicted is still in the cache and the document is
    still in the store. *)
Theorem deleteMany_throws_before_evicting :
  (forall (this : Database) (table : string) (query : delete_query)
          (st : state),
      (exists msg, DatabaseJs.deleteMany this table query st
                   = (st, Throw (TypeError msg)))
      /\ (exists msg, Part000.deleteMany this table query st
                      = (st, Throw (TypeError msg))))
  /\ (let q := DQFunction (fun _ => true) (fun _ => true) in
      let r := Part000.deleteMany Sample.quiet "main" q Sample.warm in
      evicts Sample.quiet "main" (fun _ => true) "money_1" = true
      /\ caches r.1 !! "c_main" = Some {[ "money_1" := VNum 5 ]}
      /\ db_of r.1 "main" = [("money", [Doc "money_1" (VNum 5)])]
      /\ trace r.1 = []).
Proof.
  split.
  - intros this table query st.
    unfold DatabaseJs.deleteMany, Part000.deleteMany, cache_cache,
      entry_keys.
    unfold_monad.
    destruct (caches st !! cacheName_of table) as [c|]; simpl;
      split; by eexists.
  - repeat split; reflexivity.
Qed.

(** ** Sorting *)

Section ArraySort.
Context (cmp : doc -> doc -> option Z) (g : doc -> Z).
Hypothesis cmp_numeric :
  forall x y, numeric x -> numeric y -> cmp x y = Some (g x - g y).
Hypothesis cmp_equal :
  forall x y, value_of x = value_of y -> not_after (cmp x y) = true.

Lemma sort_insert_perm x l : sort_insert cmp x l ≡ₚ x :: l.
Proof.
  induction l as [|y rest IH]; simpl; [done |].
  destruct (not_after (cmp x y)); [done |].
  rewrite IH. apply perm_swap.
Qed.

Lemma array_sort_perm l : array_sort cmp l ≡ₚ l.
Proof.
  induction l as [|x rest IH]; simpl; [done |].
  rewrite sort_insert_perm. by rewrite IH.
Qed.

Lemma sort_insert_stable v x l :
  List.filter (same_value v) (sort_insert cmp x l)
  = List.filter (same_value v) (x :: l).
Proof.
  induction l as [|y rest IH]; simpl; [done |].
  destruct (not_after (cmp x y)) eqn:Hxy; [done |].
  simpl in *. rewrite IH.
  destruct (same_value v x) eqn:Hx, (same_value v y) eqn:Hy; try done.
  unfold same_value in *.
  apply bool_decide_eq_true in Hx, Hy.
  rewrite cmp_equal in Hxy by congruence. done.
Qed.

(** Documents with the same value keep their order. *)
Lemma array_sort_stable v l :
  List.filter (same_value v) (array_sort cmp l)
  = List.filter (same_value v) l.
Proof.
  induction l as [|x rest IH]; [done |].
  change (array_sort cmp (x :: rest))
    with (sort_insert cmp x (array_sort cmp rest)).
  rewrite sort_insert_stable. simpl. by rewrite IH.
Qed.

Lemma sort_insert_sorted x l :
  numeric x -> Forall numeric l ->
  Sorted (fun a b => g a <= g b) l ->
  Sorted (fun a b => g a <= g b) (sort_insert cmp x l).
Proof.
  intros Hx Hl Hs. induction l as [|y rest IH]; simpl.
  - by repeat constructor.
  - apply Forall_cons in Hl as [Hy Hrest].
    rewrite (cmp_numeric x y) by done. simpl.
    destruct (Z.leb_spec (g x - g y) 0) as [Hle|Hgt].
    + constructor; [done |]. constructor. lia.
    + apply Sorted_inv in Hs as [Hs Hhd].
      constructor; [by apply IH |].
      destruct rest as [|z rest']; simpl.
      * constructor. lia.
      * apply Forall_cons in Hrest as [Hz _].
        rewrite (cmp_numeric x z) by done. simpl.
        apply HdRel_inv in Hhd.
        destruct (g x - g z <=? 0); constructor; lia.
Qed.

Lemma array_sort_sorted l :
  Forall numeric l -> Sorted (fun a b => g a <= g b) (array_sort cmp l).
Proof.
  induction l as [|x rest IH]; intros Hl; simpl; [constructor |].
  apply Forall_cons in Hl as [Hx Hrest].
  apply sort_insert_sorted; [done | | by apply IH].
  eapply Forall_forall. intros d Hd.
  eapply Forall_forall in Hrest; [exact Hrest |].
  by rewrite <- (array_sort_perm rest).
Qed.

End ArraySort.

Lemma compare_asc_numeric x y :
  numeric x -> numeric y ->
  compare_asc x y = Some (number_of x - number_of y).
Proof.
  unfold numeric, compare_asc, number_of. intros [a ->] [b ->]. done.
Qed.

Lemma compare_desc_numeric x y :
  numeric x -> numeric y ->
  compare_desc x y = Some (- number_of x - - number_of y).
Proof.
  intros Hx Hy. unfold compare_desc. rewrite compare_asc_numeric by done.
  f_equal. lia.
Qed.

Lemma compare_asc_equal x y :
  value_of x = value_of y -> not_after (compare_asc x y) = true.
Proof.
  unfold compare_asc. intros ->.
  destruct (to_number (value_of y)); simpl; [| done].
  apply Z.leb_le. lia.
Qed.

Lemma compare_desc_equal x y :
  value_of x = value_of y -> not_after (compare_desc x y) = true.
Proof. intros H. apply compare_asc_equal. done. Qed.

Lemma slice0_nonneg {A} (l : list A) n :
  0 <= n -> slice0 l n = firstn (Z.to_nat n) l.
Proof. intros Hn. unfold slice0. destruct (Z.ltb_spec n 0); [lia | done]. Qed.

(** ** [all] and [findMany] *)

Lemma filter_everything {A} (l : list A) :
  List.filter (fun _ => true) l = l.
Proof. induction l as [|x rest IH]; simpl; [done | by rewrite IH]. Qed.

Lemma all_loop_spec table filter names :
  forall acc st,
    all_loop table filter names acc st
    = (State (caches st) (store st)
         (trace st ++ map (ColFind table) names),
       Return (acc ++ concat (map (fun n =>
                 List.filter filter (docs_of (db_of st table) n)) names))%list).
Proof.
  induction names as [|n rest IH]; intros acc st; simpl.
  - rewrite !app_nil_r. by destruct st.
  - unfold col_find. unfold_monad. simpl. rewrite IH. simpl.
    rewrite <- !app_assoc. simpl. by rewrite filter_everything.
Qed.

Lemma docs_of_names (db : database) :
  NoDup (map fst db) -> map (docs_of db) (map fst db) = map snd db.
Proof.
  induction db as [|[n ds] rest IH]; simpl; intros Hnd; [done |].
  apply NoDup_cons in Hnd as [Hn Hrest].
  unfold docs_of at 1, lookup_col. simpl. rewrite String.eqb_refl. simpl.
  f_equal. rewrite <- IH by done.
  apply map_ext_in. intros n' Hin.
  unfold docs_of, lookup_col. simpl.
  destruct (String.eqb n n') eqn:Hnn; [| done].
  apply String.eqb_eq in Hnn. subst n'.
  exfalso. apply Hn. by apply list_elem_of_In.
Qed.

Lemma filter_concat {A} (f : A -> bool) (ls : list (list A)) :
  concat (map (List.filter f) ls) = List.filter f (concat ls).
Proof.
  induction ls as [|l rest IH]; simpl; [done |].
  by rewrite List.filter_app, IH.
Qed.

(** The documents [all] has collected when it comes to sort: those of
    every collection, in the order of the collections, that pass the
    filter. *)
Lemma all_collects table filter st :
  NoDup (map fst (db_of st table)) ->
  (listCollections table ≫= fun collections =>
     all_loop table filter collections []) st
  = (State (caches st) (store st)
       (trace st ++ ListCollections table
          :: map (ColFind table) (map fst (db_of st table))),
     Return (List.filter filter (concat (map snd (db_of st table))))).
Proof.
  intros Hnd. unfold listCollections. unfold_monad. simpl.
  rewrite all_loop_spec. simpl. rewrite <- app_assoc. simpl.
  unfold db_of. simpl. fold (db_of st table).
  rewrite <- filter_concat, <- docs_of_names by done.
  by rewrite !map_map.
Qed.

Lemma Sorted_weaken {A} (R R' : A -> A -> Prop) (l : list A) :
  (forall a b, R a b -> R' a b) -> Sorted R l -> Sorted R' l.
Proof.
  intros HR. induction 1 as [|x l Hs IH Hhd]; constructor; [done |].
  destruct Hhd; constructor. by apply HR.
Qed.

(** C7: [all] finds every document of every collection of the table, keeps
    those that pass the filter, in the order of the collections, sorts them
    by their numeric value (ascending for ["asc"], descending for
    ["desc"], documents of equal value keeping their order) and returns the
    first [list] of the sorted whole, [list] being 100 and the order
    ["asc"] when the argument is absent; it leaves the caches and the store
    as they were.  This is stated for a database whose collections have
    distinct names, a limit that is not negative and values that the
    comparator reads as numbers.  On the collections [A: [{x, 1}]],
    [B: [{y, 5}]], with the filter [v => v.value > 0], limit 10 and
    ["desc"], the result is [[{y, 5}, {x, 1}]]. *)
Theorem all_filters_sorts_truncates :
  (forall (table : string) (filter : doc -> bool) (list_ : option Z)
          (sort : option string) (st : state),
      let merged :=
        List.filter filter (concat (map snd (db_of st table))) in
      let limit := default 100 list_ in
      let order := default "asc" sort in
      NoDup (map fst (db_of st table)) ->
      0 <= limit ->
      Forall numeric merged ->
      exists sorted,
        (all table filter list_ sort st).2
        = Return (firstn (Z.to_nat limit) sorted)
        /\ caches (all table filter list_ sort st).1 = caches st
        /\ store (all table filter list_ sort st).1 = store st
        /\ sorted ≡ₚ merged
        /\ (forall v, List.filter (same_value v) sorted
                      = List.filter (same_value v) merged)
        /\ (order = "asc" ->
            StronglySorted (fun a b => number_of a <= number_of b) sorted)
        /\ (order = "desc" ->
            StronglySorted (fun a b => number_of b <= number_of a) sorted))
  /\ (all "main" Sample.positive (Some 10) (Some "desc")
        Sample.two_collections).2
     = Return [Doc "y" (VNum 5); Doc "x" (VNum 1)].
Proof.
  split; [| reflexivity].
  intros table filter list_ sort st merged limit order Hnd Hlimit Hnum.
  pose proof (all_collects table filter st Hnd) as Hcollect.
  fold merged in Hcollect.
  assert (Hall : forall sorted,
    sorted = (if String.eqb order "asc" then array_sort compare_asc merged
              else if String.eqb order "desc"
                   then array_sort compare_desc merged
                   else merged) ->
    all table filter list_ sort st
    = (State (caches st) (store st)
         (trace st ++ ListCollections table
            :: map (ColFind table) (map fst (db_of st table))),
       Return (firstn (Z.to_nat limit) sorted))).
  { intros sorted ->. unfold all. fold limit order.
    unfold mbind, M_bind in Hcollect |- *.
    unfold bind at 1 in Hcollect. unfold bind at 1 2.
    destruct (listCollections table st) as [st1 [names|e]]; [| done].
    rewrite Hcollect. unfold mret, M_ret, ret.
    by rewrite slice0_nonneg. }
  eexists. rewrite (Hall _ eq_refl). simpl.
  split; [reflexivity |]. split; [done |]. split; [done |].
  destruct (String.eqb order "asc") eqn:Hasc;
    [| destruct (String.eqb order "desc") eqn:Hdesc].
  - apply String.eqb_eq in Hasc.
    split; [apply array_sort_perm |].
    split; [intros v; apply array_sort_stable, compare_asc_equal |].
    split; [| intros Hd; rewrite Hasc in Hd; discriminate].
    intros _. apply Sorted_StronglySorted; [intros a b c; lia |].
    by apply array_sort_sorted with (g := number_of);
      [apply compare_asc_numeric |].
  - apply String.eqb_eq in Hdesc.
    split; [apply array_sort_perm |].
    split; [intros v; apply array_sort_stable, compare_desc_equal |].
    split; [intros Ha; rewrite Hdesc in Ha; discriminate |].
    intros _. apply Sorted_StronglySorted; [intros a b c; lia |].
    eapply Sorted_weaken;
      [| apply array_sort_sorted with (g := fun d => - number_of d);
         [apply compare_desc_numeric | done]].
    simpl. intros a b. lia.
  - apply String.eqb_neq in Hasc, Hdesc.
    split; [done |]. split; [done |]. split; intros; congruence.
Qed.

Lemma all_filters_sorts_truncates_witness :
  exists sorted,
    (all "main" Sample.positive (Some 10) (Some "desc")
       Sample.two_collections).2 = Return (firstn 10 sorted)
    /\ sorted ≡ₚ [Doc "x" (VNum 1); Doc "y" (VNum 5)]
    /\ StronglySorted (fun a b => number_of b <= number_of a) sorted.
Proof.
  destruct (proj1 all_filters_sorts_truncates "main" Sample.positive
              (Some 10) (Some "desc") Sample.two_collections)
    as (sorted & Hres & _ & _ & Hperm & _ & _ & Hdesc).
  - apply (bool_decide_unpack _). vm_compute. reflexivity.
  - simpl. lia.
  - repeat constructor; by eexists.
  - exists sorted. split; [exact Hres |]. split; [exact Hperm |].
    by apply Hdesc.
Defined.

Lemma findMany_loop_spec table query limit names :
  forall acc st,
    findMany_loop table query limit names acc st
    = (State (caches st) (store st)
         (trace st ++ map (ColFind table) names),
       Return (acc ++ concat (map (fun n =>
                 limited limit (selected query (docs_of (db_of st table) n)))
                 names))%list).
Proof.
  induction names as [|n rest IH]; intros acc st; simpl.
  - rewrite !app_nil_r. by destruct st.
  - unfold col_find. unfold_monad.
    destruct query as [f|sel]; simpl; rewrite IH; simpl;
      rewrite <- !app_assoc; simpl; rewrite ?filter_everything; done.
Qed.

Lemma findMany_spec table query limit st :
  NoDup (map fst (db_of st table)) ->
  findMany table query limit st
  = (State (caches st) (store st)
       (trace st ++ ListCollections table
          :: map (ColFind table) (map fst (db_of st table))),
     Return (concat (map (fun p => limited limit (selected query p.2))
                       (db_of st table)))).
Proof.
  intros Hnd. unfold findMany, listCollections. unfold_monad. simpl.
  rewrite findMany_loop_spec. simpl. rewrite <- app_assoc. simpl.
  unfold db_of. simpl. fold (db_of st table).
  do 2 f_equal. f_equal.
  rewrite <- (map_map snd (fun ds => limited limit (selected query ds))).
  rewrite <- docs_of_names by done. by rewrite !map_map.
Qed.

Lemma length_concat_firstn {A} (k : nat) (ls : list (list A)) :
  (length (concat (map (firstn k) ls)) <= k * length ls)%nat.
Proof.
  induction ls as [|l rest IH]; simpl; [lia |].
  rewrite length_app. pose proof (firstn_le_length k l).
  rewrite length_firstn. lia.
Qed.

(** C8, as stated, fails for the limit 0: [if (limit)] takes 0 for an
    absent limit, and every collection contributes all its documents. *)
Lemma findMany_limit_zero_keeps_everything :
  (findMany "main" (FQFunction (fun _ => true)) (Some 0)
     Sample.two_collections).2
  = Return [Doc "x" (VNum 1); Doc "y" (VNum 5)].
Proof. reflexivity. Qed.

(** C8, amended: [findMany] goes through every collection of the table,
    keeps of each the documents the query selects (a function of the
    document, or a filter of the store) and returns the concatenation in
    the order of the collections.  With a positive limit it keeps at most
    the first [limit] documents of each collection before concatenating, so
    the result has at most [limit] times the number of collections
    elements; with no limit, or the limit 0, nothing is cut.  The caches
    and the store are left as they were.  (Stated for a database whose
    collections have distinct names.) *)
Theorem findMany_truncates_each_collection :
  forall (table : string) (query : find_query) (limit : option Z)
         (st : state),
    let db := db_of st table in
    let kept := map (fun p => selected query p.2) db in
    NoDup (map fst db) ->
    (forall n, limit = Some n -> 0 < n ->
        (findMany table query limit st).2
        = Return (concat (map (firstn (Z.to_nat n)) kept))
        /\ (length (concat (map (firstn (Z.to_nat n)) kept))
            <= Z.to_nat n * length db)%nat)
    /\ (limit = None \/ limit = Some 0 ->
        (findMany table query limit st).2 = Return (concat kept))
    /\ caches (findMany table query limit st).1 = caches st
    /\ store (findMany table query limit st).1 = store st.
Proof.
  intros table query limit st db kept Hnd.
  rewrite (findMany_spec table query limit st Hnd). simpl. fold db.
  split; [| split; [| done]].
  - intros n -> Hn. split.
    + do 2 f_equal. subst kept. rewrite map_map.
      apply map_ext. intros p. simpl.
      destruct (Z.eqb_spec n 0); [lia |]. simpl.
      apply slice0_nonneg. lia.
    + etrans; [apply length_concat_firstn |].
      subst kept. by rewrite length_map.
  - intros [-> | ->]; reflexivity.
Qed.

Lemma findMany_truncates_each_collection_witness :
  (findMany "main" (FQFunction (fun _ => true)) (Some 1) Sample.crowded).2
  = Return [Doc "x" (VNum 1); Doc "y" (VNum 5)]
  /\ (findMany "main" (FQFunction (fun _ => true)) None Sample.crowded).2
     = Return [Doc "x" (VNum 1); Doc "x2" (VNum 2);
               Doc "y" (VNum 5); Doc "y2" (VNum 6)].
Proof.
  assert (Hnd : NoDup (map fst (db_of Sample.crowded "main"))).
  { apply (bool_decide_unpack _). vm_compute. reflexivity. }
  split.
  - destruct (findMany_truncates_each_collection "main"
                (FQFunction (fun _ => true)) (Some 1)
                Sample.crowded Hnd) as (Hpos & _).
    apply (Hpos 1 eq_refl). lia.
  - destruct (findMany_truncates_each_collection "main"
                (FQFunction (fun _ => true)) None
                Sample.crowded Hnd) as (_ & Hnone & _).
    apply Hnone. by left.
Defined.

(** * Further properties of the methods *)

(** ** Collections by name *)

Lemma lookup_col_app_notin pre post n :
  n ∉ map fst pre -> lookup_col (pre ++ post)%list n = lookup_col post n.
Proof.
  unfold lookup_col. induction pre as [|[m ds] pre IH]; simpl; [done |].
  intros Hn. apply not_elem_of_cons in Hn as [Hne Hn].
  destruct (String.eqb_spec m n); [congruence | by apply IH].
Qed.

Lemma lookup_col_here n ds post : lookup_col ((n, ds) :: post) n = Some ds.
Proof. unfold lookup_col. simpl. by rewrite String.eqb_refl. Qed.

Lemma alter_col_app_notin f n pre post :
  n ∉ map fst pre ->
  alter_col f n (pre ++ post)%list = (pre ++ alter_col f n post)%list.
Proof.
  induction pre as [|[m ds] pre IH]; simpl; [done |].
  intros Hn. apply not_elem_of_cons in Hn as [Hne Hn].
  destruct (String.eqb_spec m n); [congruence |]. by rewrite IH.
Qed.

Lemma remove_col_app_notin n pre post :
  n ∉ map fst pre ->
  remove_col n (pre ++ post)%list = (pre ++ remove_col n post)%list.
Proof.
  induction pre as [|[m ds] pre IH]; simpl; [done |].
  intros Hn. apply not_elem_of_cons in Hn as [Hne Hn].
  destruct (String.eqb_spec m n); [congruence |]. by rewrite IH.
Qed.

Lemma NoDup_names_split (pre post : database) n ds :
  NoDup (map fst (pre ++ (n, ds) :: post)%list) ->
  (n ∉ map fst pre) /\ (n ∉ map fst post).
Proof.
  rewrite map_app. simpl. intros Hnd.
  apply NoDup_app in Hnd as (_ & Hdisj & Hpost).
  apply NoDup_cons in Hpost as [Hn _]. split; [| done].
  intros Hin. apply (Hdisj n Hin). by left.
Qed.

Lemma docs_of_split (pre post : database) n ds :
  n ∉ map fst pre -> docs_of (pre ++ (n, ds) :: post)%list n = ds.
Proof.
  intros Hn. unfold docs_of.
  by rewrite lookup_col_app_notin, lookup_col_here.
Qed.

Lemma docs_of_elem (db : database) n ds :
  NoDup (map fst db) -> (n, ds) ∈ db -> docs_of db n = ds.
Proof.
  intros Hnd Hin. apply list_elem_of_split in Hin as (pre & post & ->).
  apply docs_of_split. by destruct (NoDup_names_split pre post n ds Hnd).
Qed.

Lemma db_of_State c s t table :
  db_of (State c s t) table = default [] (s !! table).
Proof. reflexivity. Qed.

(** ** [delete] *)

(** Passing the collections that hold no document for the key: one
    [findOne] each, nothing else. *)
Lemma DatabaseJs_delete_loop_skip table k cn names rest :
  forall st,
    (forall n, n ∈ names ->
       List.find (has_key k) (docs_of (db_of st table) n) = None) ->
    DatabaseJs.delete_loop table k cn (names ++ rest) st
    = DatabaseJs.delete_loop table k cn rest
        (State (caches st) (store st)
           (trace st ++ map (fun n => ColFindOne table n k) names)).
Proof.
  induction names as [|n names IH]; intros st Habs; simpl.
  - rewrite app_nil_r. by destruct st.
  - unfold col_findOne. unfold_monad. simpl.
    rewrite db_of_State. fold (db_of st table).
    rewrite (Habs n) by (by left). simpl.
    rewrite IH.
    + simpl. by rewrite <- app_assoc.
    + intros m Hm. rewrite db_of_State. fold (db_of st table).
      apply Habs. by right.
Qed.

Lemma Part000_delete_loop_skip table k cn names rest :
  forall st,
    (forall n, n ∈ names ->
       List.find (has_key k) (docs_of (db_of st table) n) = None) ->
    Part000.delete_loop table k cn (names ++ rest) st
    = Part000.delete_loop table k cn rest
        (State (caches st) (store st)
           (trace st ++ map (fun n => ColFindOne table n k) names)).
Proof.
  induction names as [|n names IH]; intros st Habs; simpl.
  - rewrite app_nil_r. by destruct st.
  - unfold col_findOne. unfold_monad. simpl.
    rewrite db_of_State. fold (db_of st table).
    rewrite (Habs n) by (by left). simpl.
    rewrite IH.
    + simpl. by rewrite <- app_assoc.
    + intros m Hm. rewrite db_of_State. fold (db_of st table).
      apply Habs. by right.
Qed.

(** X1: [delete] of a key for which no collection of the table holds a
    document returns normally and leaves the caches and the store as they
    were, in both files; the table's cache need not even exist. *)
Theorem delete_absent_key_changes_nothing :
  forall (this : Database) (table key : string) (id : value) (st : state),
    (forall n, n ∈ map fst (db_of st table) ->
       List.find (has_key (DatabaseJs.cacheKey_of key id))
         (docs_of (db_of st table) n) = None) ->
    (forall n, n ∈ map fst (db_of st table) ->
       List.find (has_key (Part000.cacheKey_of key id))
         (docs_of (db_of st table) n) = None) ->
    (let r := DatabaseJs.delete this table key id st in
     r.2 = Return tt /\ caches r.1 = caches st /\ store r.1 = store st)
    /\ (let r := Part000.delete this table key id st in
        r.2 = Return tt /\ caches r.1 = caches st /\ store r.1 = store st).
Proof.
  intros this table key id st HA HB. split.
  - unfold DatabaseJs.delete, listCollections. unfold_monad. simpl.
    rewrite db_of_State. fold (db_of st table).
    rewrite <- (app_nil_r (map fst (db_of st table))).
    rewrite DatabaseJs_delete_loop_skip; [done |].
    intros n Hn. rewrite db_of_State. fold (db_of st table). by apply HA.
  - unfold Part000.delete, listCollections. unfold_monad. simpl.
    rewrite db_of_State. fold (db_of st table).
    rewrite <- (app_nil_r (map fst (db_of st table))).
    rewrite Part000_delete_loop_skip; [done |].
    intros n Hn. rewrite db_of_State. fold (db_of st table). by apply HB.
Qed.

Lemma delete_absent_key_changes_nothing_witness :
  (let r := DatabaseJs.delete Sample.quiet "main" "level" (VStr "1")
              Sample.warm in
   r.2 = Return tt /\ caches r.1 = caches Sample.warm
   /\ store r.1 = store Sample.warm)
  /\ (let r := Part000.delete Sample.quiet "main" "level" (VStr "1")
                 Sample.warm in
      r.2 = Return tt /\ caches r.1 = caches Sample.warm
      /\ store r.1 = store Sample.warm).
Proof.
  apply (delete_absent_key_changes_nothing Sample.quiet "main" "level"
           (VStr "1") Sample.warm).
  - intros n Hn. apply list_elem_of_In in Hn. vm_compute in Hn.
    destruct Hn as [<- | []]. reflexivity.
  - intros n Hn. apply list_elem_of_In in Hn. vm_compute in Hn.
    destruct Hn as [<- | []]. reflexivity.
Defined.

Lemma absent_in_prefix (db pre post : database) name ds k :
  db = (pre ++ (name, ds) :: post)%list ->
  NoDup (map fst db) ->
  Forall (fun p => List.find (has_key k) p.2 = None) pre ->
  forall n, n ∈ map fst pre -> List.find (has_key k) (docs_of db n) = None.
Proof.
  intros -> Hnd Hpre n Hn.
  apply list_elem_of_fmap in Hn as ([n' ds'] & -> & Hin). simpl.
  rewrite (docs_of_elem _ n' ds' Hnd).
  - by apply (proj1 (Forall_forall _ _) Hpre (n', ds')).
  - apply elem_of_app. by left.
Qed.

Lemma alter_col_split f name pre ds post :
  name ∉ map fst pre ->
  alter_col f name (pre ++ (name, ds) :: post)%list
  = (pre ++ (name, f ds) :: post)%list.
Proof.
  intros Hn. rewrite alter_col_app_notin by done. simpl.
  by rewrite String.eqb_refl.
Qed.

Lemma remove_col_split name pre ds post :
  name ∉ map fst pre ->
  remove_col name (pre ++ (name, ds) :: post)%list = (pre ++ post)%list.
Proof.
  intros Hn. rewrite remove_col_app_notin by done. simpl.
  by rewrite String.eqb_refl.
Qed.

Lemma DatabaseJs_delete_hit this table key id st pre post name ds d :
  let k := DatabaseJs.cacheKey_of key id in
  let cn := cacheName_of table in
  db_of st table = (pre ++ (name, ds) :: post)%list ->
  NoDup (map fst (db_of st table)) ->
  Forall (fun p => List.find (has_key k) p.2 = None) pre ->
  List.find (has_key k) ds = Some d ->
  DatabaseJs.delete this table key id st
  = cache_delete cn k
      (State (caches st)
         (<[table := (pre ++ (name, remove_first k ds) :: post)%list]>
            (store st))
         (trace st ++ ListCollections table
            :: map (fun p => ColFindOne table p.1 k) pre
            ++ [ColFindOne table name k; ColDeleteOne table name k])).
Proof.
  intros k cn Hdb Hnd Hpre Hd.
  destruct (NoDup_names_split pre post name ds) as [Hname _];
    [by rewrite <- Hdb |].
  unfold DatabaseJs.delete, listCollections. fold k cn. unfold_monad. simpl.
  rewrite db_of_State. fold (db_of st table).
  rewrite Hdb, map_app. simpl.
  rewrite DatabaseJs_delete_loop_skip.
  2:{ intros n Hn. rewrite db_of_State. fold (db_of st table).
      by eapply absent_in_prefix. }
  simpl. unfold col_findOne, col_deleteOne. unfold_monad.
  simpl. rewrite !db_of_State. fold (db_of st table).
  rewrite Hdb, docs_of_split, Hd by done. simpl.
  rewrite db_of_State. fold (db_of st table).
  rewrite Hdb, alter_col_split by done.
  rewrite <- !app_assoc, map_map. simpl. by rewrite <- ?app_assoc.
Qed.

(** X2: [delete] of [src/classes/Database.js] works on the first collection,
    in the order of [listCollections], that holds a document for the
    composite key: it removes the first such document of that collection,
    evicts the key from the table's cache and stops, without reading the
    collections that follow.  Every collection stays, also one left empty.
    When the table has no cache the document is removed all the same and
    the call then throws. *)
Theorem DatabaseJs_delete_first_match :
  forall (this : Database) (table key : string) (id : value) (st : state)
         (pre post : database) (name : string) (ds : collection) (d : doc),
    let k := DatabaseJs.cacheKey_of key id in
    let cn := cacheName_of table in
    db_of st table = (pre ++ (name, ds) :: post)%list ->
    NoDup (map fst (db_of st table)) ->
    Forall (fun p => List.find (has_key k) p.2 = None) pre ->
    List.find (has_key k) ds = Some d ->
    let r := DatabaseJs.delete this table key id st in
    db_of r.1 table = (pre ++ (name, remove_first k ds) :: post)%list
    /\ trace r.1
       = (trace st ++ ListCollections table
            :: map (fun p => ColFindOne table p.1 k) pre
            ++ ColFindOne table name k :: ColDeleteOne table name k
            :: match caches st !! cn with
               | Some _ => [CacheDelete cn k]
               | None => []
               end)%list
    /\ match caches st !! cn with
       | Some c =>
           r.2 = Return tt
           /\ caches r.1 = <[cn := base.delete k c]> (caches st)
       | None =>
           (exists e, r.2 = Throw (TypeError e)) /\ caches r.1 = caches st
       end.
Proof.
  intros this table key id st pre post name ds d k cn Hdb Hnd Hpre Hd.
  rewrite (DatabaseJs_delete_hit this table key id st pre post name ds d)
    by done.
  fold k cn. unfold cache_delete. unfold_monad. simpl.
  destruct (caches st !! cn) as [c|]; simpl.
  - rewrite db_of_State, lookup_insert_eq, <- !app_assoc. simpl.
    by rewrite <- !app_assoc.
  - rewrite db_of_State, lookup_insert_eq. simpl.
    split; [done |]. split; [done |]. split; [by eexists | done].
Qed.

Lemma DatabaseJs_delete_first_match_witness :
  let r := DatabaseJs.delete Sample.quiet "main" "money" (VStr "1")
             Sample.warm in
  db_of r.1 "main" = [("money", [])]
  /\ trace r.1
     = [ListCollections "main"; ColFindOne "main" "money" "money_1";
        ColDeleteOne "main" "money" "money_1";
        CacheDelete "c_main" "money_1"]
  /\ r.2 = Return tt
  /\ caches r.1
     = <["c_main" := base.delete "money_1" {[ "money_1" := VNum 5 ]}]>
         (caches Sample.warm).
Proof.
  destruct (DatabaseJs_delete_first_match Sample.quiet "main" "money"
              (VStr "1") Sample.warm [] [] "money"
              [Doc "money_1" (VNum 5)] (Doc "money_1" (VNum 5)))
    as (Hdb & Htr & Hc).
  - reflexivity.
  - apply (bool_decide_unpack _). vm_compute. reflexivity.
  - constructor.
  - reflexivity.
  - split; [exact Hdb |]. split; [exact Htr |]. exact Hc.
Defined.

Lemma Part000_delete_hit this table key id st pre post name ds d c :
  let k := Part000.cacheKey_of key id in
  let cn := cacheName_of table in
  db_of st table = (pre ++ (name, ds) :: post)%list ->
  NoDup (map fst (db_of st table)) ->
  Forall (fun p => List.find (has_key k) p.2 = None) pre ->
  List.find (has_key k) ds = Some d ->
  caches st !! cn = Some c ->
  let r := Part000.delete this table key id st in
  r.2 = Return tt
  /\ caches r.1 = <[cn := base.delete k c]> (caches st)
  /\ db_of r.1 table
     = match remove_first k ds with
       | [] => (pre ++ post)%list
       | rest => (pre ++ (name, rest) :: post)%list
       end.
Proof.
  intros k cn Hdb Hnd Hpre Hd Hc.
  destruct (NoDup_names_split pre post name ds) as [Hname _];
    [by rewrite <- Hdb |].
  unfold Part000.delete, listCollections. fold k cn. unfold_monad. simpl.
  rewrite db_of_State. fold (db_of st table).
  rewrite Hdb, map_app. simpl.
  rewrite Part000_delete_loop_skip.
  2:{ intros n Hn. rewrite db_of_State. fold (db_of st table).
      by eapply absent_in_prefix. }
  simpl.
  unfold col_findOne, col_deleteOne, cache_delete, col_countDocuments,
    col_drop.
  unfold_monad. simpl. rewrite !db_of_State. fold (db_of st table).
  rewrite Hdb, docs_of_split, Hd by done. simpl.
  rewrite db_of_State. fold (db_of st table).
  rewrite Hdb, alter_col_split, Hc by done. simpl.
  rewrite !db_of_State, lookup_insert_eq. simpl.
  rewrite docs_of_split by done.
  destruct (remove_first k ds) as [|d' rest] eqn:Hrem; simpl.
  - rewrite !db_of_State, lookup_insert_eq. simpl.
    rewrite lookup_col_app_notin, lookup_col_here by done. simpl.
    rewrite db_of_State, lookup_insert_eq. simpl.
    by rewrite remove_col_split.
  - rewrite db_of_State, lookup_insert_eq. done.
Qed.

(** X3: [delete] of the second file does the same on the first collection
    that holds a document for its composite key, and then drops that
    collection when the removal left it without documents; a collection
    that still has documents stays. *)
Theorem Part000_delete_first_match :
  forall (this : Database) (table key : string) (id : value) (st : state)
         (pre post : database) (name : string) (ds : collection) (d : doc)
         (c : gmap string value),
    let k := Part000.cacheKey_of key id in
    let cn := cacheName_of table in
    db_of st table = (pre ++ (name, ds) :: post)%list ->
    NoDup (map fst (db_of st table)) ->
    Forall (fun p => List.find (has_key k) p.2 = None) pre ->
    List.find (has_key k) ds = Some d ->
    caches st !! cn = Some c ->
    let r := Part000.delete this table key id st in
    r.2 = Return tt
    /\ caches r.1 = <[cn := base.delete k c]> (caches st)
    /\ db_of r.1 table
       = match remove_first k ds with
         | [] => (pre ++ post)%list
         | rest => (pre ++ (name, rest) :: post)%list
         end.
Proof. intros. by eapply Part000_delete_hit. Qed.

Lemma Part000_delete_first_match_witness :
  let r := Part000.delete Sample.quiet "main" "money" (VStr "1")
             Sample.warm in
  r.2 = Return tt
  /\ caches r.1
     = <["c_main" := base.delete "money_1" {[ "money_1" := VNum 5 ]}]>
         (caches Sample.warm)
  /\ db_of r.1 "main" = [].
Proof.
  apply (Part000_delete_first_match Sample.quiet "main" "money" (VStr "1")
           Sample.warm [] [] "money" [Doc "money_1" (VNum 5)]
           (Doc "money_1" (VNum 5)) {[ "money_1" := VNum 5 ]}).
  - reflexivity.
  - apply (bool_decide_unpack _). vm_compute. reflexivity.
  - constructor.
  - reflexivity.
  - reflexivity.
Defined.

(** ** [set] of the second file *)

Lemma upsert_doc_fresh k v ds :
  List.find (has_key k) ds = None -> upsert_doc k v ds = (ds ++ [Doc k v])%list.
Proof.
  induction ds as [|d rest IH]; simpl; [done |].
  destruct (has_key k d); [done |]. intros H. by rewrite IH.
Qed.

Lemma upsert_doc_other k k' v ds :
  k' <> k ->
  List.find (has_key k') (upsert_doc k v ds) = List.find (has_key k') ds.
Proof.
  intros Hne. induction ds as [|d rest IH]; simpl.
  - unfold has_key. simpl. by destruct (String.eqb_spec k k').
  - destruct (has_key k d) eqn:Hd; simpl.
    + unfold has_key in *. simpl. apply String.eqb_eq in Hd.
      rewrite Hd. by destruct (String.eqb_spec k k').
    + by rewrite IH.
Qed.

Lemma upsert_doc_twice k v w ds :
  upsert_doc k w (upsert_doc k v ds) = upsert_doc k w ds.
Proof.
  induction ds as [|d rest IH]; simpl.
  - unfold has_key. simpl. by rewrite String.eqb_refl.
  - destruct (has_key k d) eqn:Hd; simpl.
    + unfold has_key in *. simpl. by rewrite Hd.
    + by rewrite Hd, IH.
Qed.

Lemma upsert_doc_keys k v ds :
  map key (upsert_doc k v ds)
  = match List.find (has_key k) ds with
    | Some _ => map key ds
    | None => (map key ds ++ [k])%list
    end.
Proof.
  induction ds as [|d rest IH]; simpl; [done |].
  destruct (has_key k d) eqn:Hd; simpl; [done |].
  rewrite IH. by destruct (List.find (has_key k) rest).
Qed.

Lemma find_has_key_None k ds :
  List.find (has_key k) ds = None -> k ∉ map key ds.
Proof.
  induction ds as [|d rest IH]; simpl; [intros _; apply not_elem_of_nil |].
  destruct (has_key k d) eqn:Hd; [done |]. intros H.
  apply not_elem_of_cons. split; [| by apply IH].
  unfold has_key in Hd. apply String.eqb_neq in Hd. congruence.
Qed.

(** One document per key stays one document per key. *)
Lemma upsert_doc_NoDup k v ds :
  NoDup (map key ds) -> NoDup (map key (upsert_doc k v ds)).
Proof.
  intros Hnd. rewrite upsert_doc_keys.
  destruct (List.find (has_key k) ds) eqn:Hf; [done |].
  apply NoDup_app. split; [done |]. split; [| apply NoDup_singleton].
  intros x Hx Hk. apply list_elem_of_singleton in Hk. subst x.
  by apply (find_has_key_None k ds).
Qed.

Lemma docs_of_alter_col f col db n :
  docs_of (alter_col f col db) n
  = if String.eqb n col
    then match lookup_col db col with Some ds => f ds | None => [] end
    else docs_of db n.
Proof.
  unfold docs_of, lookup_col.
  induction db as [|[m ds] rest IH]; simpl.
  - by destruct (String.eqb n col).
  - destruct (String.eqb_spec m col) as [->|Hm]; simpl.
    + destruct (String.eqb_spec col n) as [->|Hn]; simpl.
      * by rewrite String.eqb_refl.
      * destruct (String.eqb_spec n col); [congruence | done].
    + destruct (String.eqb_spec m n) as [->|Hn]; simpl.
      * destruct (String.eqb_spec n col); [congruence | done].
      * apply IH.
Qed.

Lemma docs_of_app_new db col ds n :
  lookup_col db col = None ->
  docs_of (db ++ [(col, ds)])%list n
  = if String.eqb n col then ds else docs_of db n.
Proof.
  unfold docs_of, lookup_col.
  induction db as [|[m ds'] rest IH]; simpl.
  - intros _. destruct (String.eqb_spec col n) as [->|Hn].
    + by rewrite String.eqb_refl.
    + by destruct (String.eqb_spec n col); [congruence |].
  - destruct (String.eqb_spec m col) as [->|Hm]; simpl; [done |].
    intros Hnone. destruct (String.eqb_spec m n) as [->|Hn]; simpl.
    + by destruct (String.eqb_spec n col); [congruence |].
    + by apply IH.
Qed.

(** The store after [col_updateOne], collection by collection. *)
Lemma col_updateOne_docs table col k v st n :
  let st1 := (col_updateOne table col k v st).1 in
  docs_of (db_of st1 table) n
  = if String.eqb n col
    then upsert_doc k (bson_value v) (docs_of (db_of st table) col)
    else docs_of (db_of st table) n.
Proof.
  unfold col_updateOne. unfold_monad. simpl.
  rewrite db_of_State. fold (db_of st table).
  destruct (lookup_col (db_of st table) col) as [ds|] eqn:Hcol; simpl;
    rewrite db_of_State, lookup_insert_eq; simpl.
  - rewrite docs_of_alter_col, Hcol. unfold docs_of at 2. by rewrite Hcol.
  - rewrite docs_of_app_new by done. unfold docs_of at 2. by rewrite Hcol.
Qed.

Lemma col_updateOne_frame table col k v st :
  let st1 := (col_updateOne table col k v st).1 in
  (col_updateOne table col k v st).2 = Return tt
  /\ caches st1 = caches st
  /\ (forall t, t <> table -> db_of st1 t = db_of st t).
Proof.
  unfold col_updateOne. unfold_monad. simpl.
  destruct (lookup_col _ col); simpl;
    (split; [done |]; split; [done |]; intros t Ht;
     rewrite db_of_State, lookup_insert_ne by done; done).
Qed.

Lemma Part000_set_steps this table key id v st c :
  caches st !! cacheName_of table = Some c ->
  Part000.set this table key id v st
  = col_updateOne table key (Part000.cacheKey_of key id) v
      (State (<[cacheName_of table :=
                 <[Part000.cacheKey_of key id := v]> c]> (caches st))
         (store st)
         (trace st ++ [CacheSet (cacheName_of table)
                         (Part000.cacheKey_of key id) v])).
Proof.
  intros Hc. unfold Part000.set, cache_set. unfold_monad. by rewrite Hc.
Qed.

(** X4: [set] of the second file touches one cache entry and one document
    and nothing else.  The table's cache gets the value under the
    composite key; the key's collection gets the upsert; every other
    collection of the table, every other table and every document with
    another key is as before, and a collection that held at most one
    document per key still does. *)
Theorem Part000_set_frame :
  forall (this : Database) (table key : string) (id v : value) (st : state)
         (c : gmap string value),
    caches st !! cacheName_of table = Some c ->
    let k := Part000.cacheKey_of key id in
    let st1 := (Part000.set this table key id v st).1 in
    caches st1 = <[cacheName_of table := <[k := v]> c]> (caches st)
    /\ docs_of (db_of st1 table) key
       = upsert_doc k (bson_value v) (docs_of (db_of st table) key)
    /\ (forall n, n <> key ->
          docs_of (db_of st1 table) n = docs_of (db_of st table) n)
    /\ (forall t, t <> table -> db_of st1 t = db_of st t)
    /\ (forall k', k' <> k ->
          List.find (has_key k') (docs_of (db_of st1 table) key)
          = List.find (has_key k') (docs_of (db_of st table) key))
    /\ (NoDup (keys_of (docs_of (db_of st table) key)) ->
        NoDup (keys_of (docs_of (db_of st1 table) key))).
Proof.
  intros this table key id v st c Hc k st1. subst st1.
  rewrite (Part000_set_steps this table key id v st c Hc). fold k.
  set (st0 := State _ _ _).
  destruct (col_updateOne_frame table key k v st0) as (_ & Hcs & Hother).
  pose proof (col_updateOne_docs table key k v st0) as Hdocs.
  simpl in Hdocs.
  assert (Hkey : docs_of (db_of (col_updateOne table key k v st0).1 table) key
                 = upsert_doc k (bson_value v) (docs_of (db_of st table) key)).
  { rewrite Hdocs, String.eqb_refl. done. }
  split; [by rewrite Hcs |]. split; [exact Hkey |]. split; [| split; [| split]].
  - intros n Hn. rewrite Hdocs.
    by destruct (String.eqb_spec n key); [congruence |].
  - intros t Ht. by rewrite Hother.
  - intros k' Hk'. rewrite Hkey. by apply upsert_doc_other.
  - unfold keys_of. intros Hnd. rewrite Hkey. by apply upsert_doc_NoDup.
Qed.

Lemma Part000_set_frame_witness :
  let st1 := (Part000.set Sample.quiet "main" "money" (VStr "2") (VNum 9)
                Sample.warm).1 in
  caches st1
  = <["c_main" := <["money_2" := VNum 9]> {[ "money_1" := VNum 5 ]}]>
      (caches Sample.warm)
  /\ docs_of (db_of st1 "main") "money"
     = [Doc "money_1" (VNum 5); Doc "money_2" (VNum 9)]
  /\ List.find (has_key "money_1") (docs_of (db_of st1 "main") "money")
     = Some (Doc "money_1" (VNum 5)).
Proof.
  destruct (Part000_set_frame Sample.quiet "main" "money" (VStr "2")
              (VNum 9) Sample.warm {[ "money_1" := VNum 5 ]} eq_refl)
    as (Hc & Hd & _ & _ & Hk & _).
  split; [exact Hc |]. split; [exact Hd |].
  rewrite (Hk "money_1"); [reflexivity | discriminate].
Defined.

Lemma col_updateOne_store table col k v st :
  (col_updateOne table col k v st).1
  = State (caches st)
      (<[table := upserted (db_of st table) col k (bson_value v)]> (store st))
      (trace st ++ [ColUpdateOne table col k v]).
Proof.
  unfold col_updateOne, upserted. unfold_monad. simpl.
  rewrite db_of_State. fold (db_of st table).
  by destruct (lookup_col (db_of st table) col).
Qed.

Lemma lookup_col_None_notin db col :
  lookup_col db col = None -> col ∉ map fst db.
Proof.
  unfold lookup_col. induction db as [|[m ds] rest IH]; simpl.
  - intros _. apply not_elem_of_nil.
  - destruct (String.eqb_spec m col); simpl; [done |].
    intros H. apply not_elem_of_cons. split; [congruence | by apply IH].
Qed.

Lemma lookup_col_Some_split db col ds :
  lookup_col db col = Some ds ->
  exists pre post,
    db = (pre ++ (col, ds) :: post)%list /\ col ∉ map fst pre.
Proof.
  unfold lookup_col. induction db as [|[m ds'] rest IH]; simpl; [done |].
  destruct (String.eqb_spec m col) as [->|Hm]; simpl.
  - intros [= ->]. exists [], rest. split; [done | apply not_elem_of_nil].
  - intros H. destruct (IH H) as (pre & post & -> & Hpre).
    exists ((m, ds') :: pre), post. split; [done |].
    simpl. apply not_elem_of_cons. split; [congruence | done].
Qed.

Lemma upserted_twice db col k v w :
  upserted (upserted db col k v) col k w = upserted db col k w.
Proof.
  unfold upserted.
  destruct (lookup_col db col) as [ds|] eqn:Hcol.
  - rewrite (lookup_col_alter _ _ _ ds Hcol).
    apply lookup_col_Some_split in Hcol as (pre & post & -> & Hpre).
    rewrite !alter_col_split by done.
    by rewrite upsert_doc_twice.
  - rewrite lookup_col_app_new by done.
    apply lookup_col_None_notin in Hcol.
    rewrite alter_col_app_notin by done. simpl.
    rewrite String.eqb_refl. unfold has_key. simpl.
    by rewrite String.eqb_refl.
Qed.

(** X5: in the second file a second [set] on the same table, key and id
    overwrites the first: the caches and the store are the ones the second
    [set] alone would have left. *)
Theorem Part000_set_last_write_wins :
  forall (this : Database) (table key : string) (id v w : value)
         (st : state) (c : gmap string value),
    caches st !! cacheName_of table = Some c ->
    let st2 := (Part000.set this table key id w
                  (Part000.set this table key id v st).1).1 in
    let st1 := (Part000.set this table key id w st).1 in
    caches st2 = caches st1 /\ store st2 = store st1.
Proof.
  intros this table key id v w st c Hc st2 st1. subst st1 st2.
  rewrite (Part000_set_steps this table key id v st c Hc).
  rewrite (Part000_set_steps this table key id w st c Hc).
  rewrite !col_updateOne_store. simpl.
  erewrite Part000_set_steps by (simpl; apply lookup_insert_eq).
  rewrite !col_updateOne_store. simpl.
  rewrite !db_of_State, lookup_insert_eq. simpl. fold (db_of st table).
  by rewrite !insert_insert_eq, upserted_twice.
Qed.

Lemma Part000_set_last_write_wins_witness :
  let st2 := (Part000.set Sample.quiet "main" "money" (VStr "1") (VNum 8)
                (Part000.set Sample.quiet "main" "money" (VStr "1") (VNum 7)
                   Sample.warm).1).1 in
  let st1 := (Part000.set Sample.quiet "main" "money" (VStr "1") (VNum 8)
                Sample.warm).1 in
  caches st2 = caches st1 /\ store st2 = store st1.
Proof.
  apply (Part000_set_last_write_wins Sample.quiet "main" "money" (VStr "1")
           (VNum 7) (VNum 8) Sample.warm {[ "money_1" := VNum 5 ]}).
  reflexivity.
Defined.

Lemma find_app_fresh k d ds :
  List.find (has_key k) ds = None -> has_key k d = true ->
  List.find (has_key k) (ds ++ [d])%list = Some d.
Proof.
  intros Hnone Hd. induction ds as [|x rest IH]; simpl in *.
  - by rewrite Hd.
  - destruct (has_key k x); [done | by apply IH].
Qed.

Lemma remove_first_app_fresh k d ds :
  List.find (has_key k) ds = None -> has_key k d = true ->
  remove_first k (ds ++ [d])%list = ds.
Proof.
  intros Hnone Hd. induction ds as [|x rest IH]; simpl in *.
  - by rewrite Hd.
  - destruct (has_key k x); [done |]. by rewrite IH.
Qed.

(** X6: in the second file, [set] followed by [delete] on a key for which
    no collection of the table held a document gives back the database as
    it was (a collection created by the [set] is dropped again) and leaves
    the table's cache without the key.  The key's collection must not have
    existed empty: [delete] would drop it. *)
Theorem Part000_set_then_delete_restores :
  forall (this : Database) (table key : string) (id v : value) (st : state)
         (c : gmap string value),
    let k := Part000.cacheKey_of key id in
    let cn := cacheName_of table in
    caches st !! cn = Some c ->
    NoDup (map fst (db_of st table)) ->
    Forall (fun p => List.find (has_key k) p.2 = None) (db_of st table) ->
    lookup_col (db_of st table) key <> Some [] ->
    let st1 := (Part000.set this table key id v st).1 in
    let r := Part000.delete this table key id st1 in
    r.2 = Return tt
    /\ db_of r.1 table = db_of st table
    /\ caches r.1 = <[cn := base.delete k c]> (caches st)
    /\ (c !! k = None -> caches r.1 = caches st).
Proof.
  intros this table key id v st c k cn Hc Hnd Hfresh Hne st1 r.
  assert (Hst1 : caches st1 !! cn = Some (<[k := v]> c)
                 /\ caches st1 = <[cn := <[k := v]> c]> (caches st)
                 /\ db_of st1 table
                    = upserted (db_of st table) key k (bson_value v)).
  { subst st1. rewrite (Part000_set_steps this table key id v st c Hc).
    rewrite col_updateOne_store. simpl. fold k cn.
    rewrite !lookup_insert_eq, db_of_State, lookup_insert_eq. done. }
  destruct Hst1 as (Hc1 & Hcs1 & Hdb1).
  assert (Hkd : has_key k (Doc k (bson_value v)) = true).
  { unfold has_key. simpl. apply String.eqb_refl. }
  assert (Hgoal : r.2 = Return tt
                  /\ caches r.1 = <[cn := base.delete k (<[k := v]> c)]>
                                    (caches st1)
                  /\ db_of r.1 table = db_of st table).
  { unfold upserted in Hdb1.
    destruct (lookup_col (db_of st table) key) as [ds|] eqn:Hcol.
    - destruct (lookup_col_Some_split _ _ _ Hcol) as (pre & post & Hdb & Hpre).
      rewrite Hdb in Hfresh. apply Forall_app in Hfresh as [Hfpre Hfrest].
      apply Forall_cons in Hfrest as [Hfds _]. simpl in Hfds.
      rewrite Hdb, alter_col_split, upsert_doc_fresh in Hdb1 by done.
      destruct (Part000_delete_hit this table key id st1 pre post key
                  (ds ++ [Doc k (bson_value v)])%list
                  (Doc k (bson_value v)) (<[k := v]> c))
        as (Hr & Hcs & Hdbr); try done.
      + rewrite Hdb1. rewrite Hdb in Hnd.
        by rewrite map_app in Hnd |- *.
      + by apply find_app_fresh.
      + fold r in Hr, Hcs, Hdbr. split; [done |]. split; [done |].
        rewrite Hdbr, remove_first_app_fresh by done.
        destruct ds; [by destruct Hne | by rewrite Hdb].
    - destruct (Part000_delete_hit this table key id st1 (db_of st table) []
                  key [Doc k (bson_value v)] (Doc k (bson_value v))
                  (<[k := v]> c))
        as (Hr & Hcs & Hdbr); try done.
      + rewrite Hdb1, map_app. simpl. apply NoDup_app.
        split; [done |]. split; [| apply NoDup_singleton].
        intros x Hx Hk. apply list_elem_of_singleton in Hk. subst x.
        by apply (lookup_col_None_notin _ _ Hcol).
      + apply (find_app_fresh k _ []); done.
      + fold r in Hr, Hcs, Hdbr. split; [done |]. split; [done |].
        rewrite Hdbr.
        change [Doc k (bson_value v)]
          with ([] ++ [Doc k (bson_value v)])%list.
        rewrite remove_first_app_fresh by done. apply app_nil_r. }
  destruct Hgoal as (Hr & Hcs & Hdbr).
  assert (Hcache : caches r.1 = <[cn := base.delete k c]> (caches st)).
  { by rewrite Hcs, Hcs1, insert_insert_eq, delete_insert_eq. }
  split; [done |]. split; [done |]. split; [done |].
  intros Hk. rewrite Hcache, delete_id by done. by apply insert_id.
Qed.

Lemma Part000_set_then_delete_restores_witness :
  let st1 := (Part000.set Sample.quiet "main" "money" (VStr "2") (VNum 9)
                Sample.warm).1 in
  let r := Part000.delete Sample.quiet "main" "money" (VStr "2") st1 in
  r.2 = Return tt
  /\ db_of r.1 "main" = db_of Sample.warm "main"
  /\ caches r.1 = caches Sample.warm.
Proof.
  destruct (Part000_set_then_delete_restores Sample.quiet "main" "money"
              (VStr "2") (VNum 9) Sample.warm {[ "money_1" := VNum 5 ]})
    as (Hr & Hdb & _ & Hc).
  - reflexivity.
  - apply (bool_decide_unpack _). vm_compute. reflexivity.
  - repeat constructor.
  - vm_compute. discriminate.
  - split; [exact Hr |]. split; [exact Hdb |]. apply Hc. reflexivity.
Defined.

(** ** [get] of [src/classes/Database.js] as a read-through cache *)

(** X7: in [src/classes/Database.js], a [get] that misses the cache and
    finds a document (for a system key, or a key the variable manager has)
    returns the stored value and puts it in the cache without writing to
    the store; the next [get] of the same key is answered from the cache
    alone, with the same record. *)
Theorem DatabaseJs_get_read_through :
  forall (this : Database) (table key : string) (id : value) (st : state)
         (c : gmap string value) (d : doc),
    let k := DatabaseJs.cacheKey_of key id in
    let cn := cacheName_of table in
    caches st !! cn = Some c ->
    c !! k = None ->
    includes aoijs_vars key = true
    \/ vm_has (variableManager this) key table = true ->
    List.find (has_key k) (docs_of (db_of st table) key) = Some d ->
    value_of d <> VUndefined ->
    let r1 := DatabaseJs.get this table key id st in
    let r2 := DatabaseJs.get this table key id r1.1 in
    r1.2 = Return (RRecord k (value_of d))
    /\ caches r1.1 = <[cn := <[k := value_of d]> c]> (caches st)
    /\ store r1.1 = store st
    /\ r2 = (State (caches r1.1) (store r1.1)
               (trace r1.1 ++ [CacheGet cn k]),
             Return (RRecord k (value_of d))).
Proof.
  intros this table key id st c d k cn Hc Hk Hkey Hd Hdef r1 r2.
  assert (Hr1 : r1 = (State (<[cn := <[k := value_of d]> c]> (caches st))
                        (store st)
                        (trace st ++ [CacheGet cn k; ColFindOne table key k;
                                      CacheSet cn k (value_of d)]),
                      Return (RRecord k (value_of d)))).
  { subst r1. unfold DatabaseJs.get. fold k cn. run.
    rewrite Hc. simpl. rewrite Hk. simpl.
    destruct (includes aoijs_vars key) eqn:Hsys; simpl.
    - rewrite db_of_State. fold (db_of st table). rewrite Hd. simpl.
      rewrite Hc. simpl. by rewrite <- !app_assoc.
    - destruct Hkey as [Hkey|Hkey]; [done |]. rewrite Hkey. simpl.
      rewrite db_of_State. fold (db_of st table). rewrite Hd. simpl.
      rewrite Hc. simpl. by rewrite <- !app_assoc. }
  subst r2. rewrite Hr1. simpl. split; [done |]. split; [done |].
  split; [done |].
  unfold DatabaseJs.get. fold k cn. run.
  rewrite !lookup_insert_eq. simpl.
  by destruct (decide (value_of d = VUndefined)).
Qed.

Lemma DatabaseJs_get_read_through_witness :
  let st := clear_cache "main" Sample.warm in
  let r1 := DatabaseJs.get Sample.quiet "main" "money" (VStr "1") st in
  let r2 := DatabaseJs.get Sample.quiet "main" "money" (VStr "1") r1.1 in
  r1.2 = Return (RRecord "money_1" (VNum 5))
  /\ r2.2 = Return (RRecord "money_1" (VNum 5))
  /\ trace r2.1 = (trace r1.1 ++ [CacheGet "c_main" "money_1"])%list.
Proof.
  destruct (DatabaseJs_get_read_through Sample.quiet "main" "money"
              (VStr "1") (clear_cache "main" Sample.warm) ∅
              (Doc "money_1" (VNum 5)))
    as (H1 & _ & _ & H2).
  - reflexivity.
  - reflexivity.
  - right. reflexivity.
  - reflexivity.
  - discriminate.
  - split; [exact H1 |]. rewrite H2. split; reflexivity.
Defined.

(** X8: in [src/classes/Database.js], for a key the variable manager has,
    that is not a system key and has no document, a [get] that misses the
    cache returns the registry default and puts it in the cache, the store
    staying as it was.  When the default is defined the next [get] returns
    it from the cache without reading the store; when the default is
    undefined the cache entry never counts as a hit and the next [get]
    reads the collection again. *)
Theorem DatabaseJs_get_default_fallback :
  forall (this : Database) (table key : string) (id : value) (st : state)
         (c : gmap string value),
    let k := DatabaseJs.cacheKey_of key id in
    let cn := cacheName_of table in
    let dflt := vm_default (variableManager this) key table in
    caches st !! cn = Some c ->
    c !! k = None ->
    includes aoijs_vars key = false ->
    vm_has (variableManager this) key table = true ->
    List.find (has_key k) (docs_of (db_of st table) key) = None ->
    let r1 := DatabaseJs.get this table key id st in
    let r2 := DatabaseJs.get this table key id r1.1 in
    r1.2 = Return (RRecord k dflt)
    /\ caches r1.1 = <[cn := <[k := dflt]> c]> (caches st)
    /\ store r1.1 = store st
    /\ r2.2 = Return (RRecord k dflt)
    /\ trace r2.1
       = (trace r1.1
            ++ if decide (dflt = VUndefined)
               then [CacheGet cn k; ColFindOne table key k;
                     CacheSet cn k dflt]
               else [CacheGet cn k])%list.
Proof.
  intros this table key id st c k cn dflt Hc Hk Hsys Hhas Hd r1 r2.
  assert (Hr1 : r1 = (State (<[cn := <[k := dflt]> c]> (caches st))
                        (store st)
                        (trace st ++ [CacheGet cn k; ColFindOne table key k;
                                      CacheSet cn k dflt]),
                      Return (RRecord k dflt))).
  { subst r1. unfold DatabaseJs.get. fold k cn. rewrite Hsys, Hhas. run.
    rewrite Hc. simpl. rewrite Hk. simpl.
    rewrite db_of_State. fold (db_of st table). rewrite Hd. simpl.
    rewrite Hc. simpl. by rewrite <- !app_assoc. }
  subst r2. rewrite Hr1. simpl. split; [done |]. split; [done |].
  split; [done |].
  unfold DatabaseJs.get. fold k cn. rewrite Hsys, Hhas. run.
  rewrite !lookup_insert_eq. simpl. fold dflt.
  destruct (decide (dflt = VUndefined)) as [Hu|Hu]; simpl; [| done].
  rewrite db_of_State. fold (db_of st table). rewrite Hd. simpl.
  rewrite lookup_insert_eq. simpl. fold dflt.
  by rewrite <- !app_assoc.
Qed.

Lemma DatabaseJs_get_default_fallback_witness :
  let r1 := DatabaseJs.get Sample.quiet "main" "money" (VStr "1")
              Sample.fresh in
  let r2 := DatabaseJs.get Sample.quiet "main" "money" (VStr "1") r1.1 in
  r1.2 = Return (RRecord "money_1" (VNum 0))
  /\ r2.2 = Return (RRecord "money_1" (VNum 0))
  /\ trace r2.1 = (trace r1.1 ++ [CacheGet "c_main" "money_1"])%list.
Proof.
  destruct (DatabaseJs_get_default_fallback Sample.quiet "main" "money"
              (VStr "1") Sample.fresh ∅)
    as (H1 & _ & _ & H2 & H3); try reflexivity.
  split; [exact H1 |]. split; [exact H2 |]. exact H3.
Defined.

(** ** A table without a cache *)

(** X9: when the table has no cache (a table that was not configured),
    [get] of [src/classes/Database.js] throws a TypeError for every key
    before it reads the store, and [set] of the second file throws before
    it writes the store; both leave the state as it was.  [get] of the
    second file throws in the same way only for a key the variable manager
    has; for a system key or an unknown key it returns without needing the
    cache. *)
Theorem table_without_cache :
  forall (this : Database) (table key : string) (id v : value) (st : state),
    caches st !! cacheName_of table = None ->
    (exists msg, DatabaseJs.get this table key id st
                 = (st, Throw (TypeError msg)))
    /\ (exists msg, Part000.set this table key id v st
                    = (st, Throw (TypeError msg)))
    /\ (includes aoijs_vars key = false ->
        vm_has (variableManager this) key table = true ->
        exists msg, Part000.get this table key id st
                    = (st, Throw (TypeError msg)))
    /\ (includes aoijs_vars key = true
        \/ vm_has (variableManager this) key table = false ->
        exists r, (Part000.get this table key id st).2 = Return r).
Proof.
  intros this table key id v st Hc. repeat split.
  - unfold DatabaseJs.get. run. rewrite Hc. by eexists.
  - unfold Part000.set. run. rewrite Hc. by eexists.
  - intros Hsys Hhas. unfold Part000.get. rewrite Hsys, Hhas. run.
    rewrite Hc. by eexists.
  - intros Hkey. unfold Part000.get.
    destruct (includes aoijs_vars key) eqn:Hsys.
    + run. by eexists.
    + destruct Hkey as [Hkey|Hkey]; [done |]. rewrite Hkey. by eexists.
Qed.

Lemma table_without_cache_witness :
  (exists msg, DatabaseJs.get Sample.quiet "other" "money" (VStr "1")
                 Sample.warm = (Sample.warm, Throw (TypeError msg)))
  /\ (exists msg, Part000.set Sample.quiet "other" "money" (VStr "1")
                    (VNum 3) Sample.warm
                  = (Sample.warm, Throw (TypeError msg)))
  /\ (exists r, (Part000.get Sample.quiet "other" "cooldown" (VStr "1")
                   Sample.warm).2 = Return r).
Proof.
  destruct (table_without_cache Sample.quiet "other" "money" (VStr "1")
              (VNum 3) Sample.warm eq_refl) as (HA & HB & _).
  destruct (table_without_cache Sample.quiet "other" "cooldown" (VStr "1")
              (VNum 3) Sample.warm eq_refl) as (_ & _ & _ & HC).
  split; [exact HA |]. split; [exact HB |]. apply HC. by left.
Defined.

(** ** [drop] with a collection name *)

Lemma lookup_col_app db1 db2 n :
  lookup_col (db1 ++ db2)%list n
  = match lookup_col db1 n with
    | Some ds => Some ds
    | None => lookup_col db2 n
    end.
Proof.
  unfold lookup_col. induction db1 as [|[m ds] rest IH]; simpl; [done |].
  by destruct (String.eqb m n).
Qed.

Lemma lookup_col_remove_col db v n :
  NoDup (map fst db) ->
  lookup_col (remove_col v db) n
  = if String.eqb n v then None else lookup_col db n.
Proof.
  intros Hnd. destruct (lookup_col db v) as [ds|] eqn:Hv.
  - destruct (lookup_col_Some_split _ _ _ Hv) as (pre & post & -> & Hpre).
    destruct (NoDup_names_split pre post v ds Hnd) as [_ Hpost].
    rewrite remove_col_split by done.
    rewrite !lookup_col_app.
    destruct (String.eqb_spec n v) as [->|Hn].
    + destruct (lookup_col pre v) eqn:Hp.
      * apply lookup_col_Some_split in Hp as (a & b & -> & _).
        exfalso. apply Hpre. rewrite map_app. apply elem_of_app. right.
        by left.
      * destruct (lookup_col post v) eqn:Hq; [| done].
        apply lookup_col_Some_split in Hq as (a & b & -> & _).
        exfalso. apply Hpost. rewrite map_app. apply elem_of_app. right.
        by left.
    + destruct (lookup_col pre n); [done |].
      unfold lookup_col at 2. simpl.
      by destruct (String.eqb_spec v n); [congruence |].
  - assert (Hid : remove_col v db = db).
    { apply lookup_col_None_notin in Hv. clear Hnd.
      induction db as [|[m ds] rest IH]; simpl; [done |].
      simpl in Hv. apply not_elem_of_cons in Hv as [Hne Hv].
      destruct (String.eqb_spec m v); [congruence |]. by rewrite IH. }
    rewrite Hid. by destruct (String.eqb_spec n v) as [->|Hn].
Qed.

(** X10: in [src/classes/Database.js], [drop(table, name)] on a collection
    that exists removes that collection only, and empties the whole cache
    of the table, not just the entries of that name.  An empty string for
    the name is taken for no name: the whole database is dropped. *)
Theorem DatabaseJs_drop_collection :
  forall (this : Database) (table name : string) (st : state)
         (c : gmap string value) (ds : collection),
    name <> "" ->
    caches st !! cacheName_of table = Some c ->
    NoDup (map fst (db_of st table)) ->
    lookup_col (db_of st table) name = Some ds ->
    (let r := DatabaseJs.drop this table (Some name) st in
     r.2 = Return tt
     /\ caches r.1 = <[cacheName_of table := ∅]> (caches st)
     /\ lookup_col (db_of r.1 table) name = None
     /\ (forall n, n <> name ->
           lookup_col (db_of r.1 table) n = lookup_col (db_of st table) n))
    /\ DatabaseJs.drop this table (Some "") st
       = DatabaseJs.drop this table None st.
Proof.
  intros this table name st c ds Hname Hc Hnd Hcol. split; [| reflexivity].
  unfold DatabaseJs.drop, given.
  destruct (String.eqb_spec name "") as [|_]; [done |].
  unfold col_drop, cache_keys. unfold_monad. simpl.
  rewrite db_of_State. fold (db_of st table). rewrite Hcol. simpl.
  rewrite Hc. rewrite (cache_delete_all_spec _ _ _ c) by done. simpl.
  rewrite foldr_delete_all_keys, db_of_State, lookup_insert_eq. simpl.
  split; [done |]. split; [done |]. split.
  - by rewrite lookup_col_remove_col, String.eqb_refl.
  - intros n Hn. rewrite lookup_col_remove_col by done.
    by destruct (String.eqb_spec n name).
Qed.

Lemma DatabaseJs_drop_collection_witness :
  (let r := DatabaseJs.drop Sample.quiet "main" (Some "money") Sample.warm in
   r.2 = Return tt
   /\ caches r.1 = <["c_main" := ∅]> (caches Sample.warm)
   /\ lookup_col (db_of r.1 "main") "money" = None)
  /\ DatabaseJs.drop Sample.quiet "main" (Some "") Sample.warm
     = DatabaseJs.drop Sample.quiet "main" None Sample.warm.
Proof.
  destruct (DatabaseJs_drop_collection Sample.quiet "main" "money"
              Sample.warm {[ "money_1" := VNum 5 ]}
              [Doc "money_1" (VNum 5)])
    as ((Hr & Hc & Hl & _) & Hempty).
  - discriminate.
  - reflexivity.
  - apply (bool_decide_unpack _). vm_compute. reflexivity.
  - reflexivity.
  - split; [| exact Hempty]. split; [exact Hr |]. split; [exact Hc | exact Hl].
Defined.

(** ** [all] beyond the sorted case *)

Lemma all_result table filter list_ sort st :
  NoDup (map fst (db_of st table)) ->
  (all table filter list_ sort st).2
  = Return (slice0
              (ordered (default "asc" sort)
                 (List.filter filter (concat (map snd (db_of st table)))))
              (default 100 list_)).
Proof.
  intros Hnd. pose proof (all_collects table filter st Hnd) as Hcollect.
  unfold all, ordered.
  unfold mbind, M_bind in Hcollect |- *.
  unfold bind at 1 in Hcollect. unfold bind at 1 2.
  destruct (listCollections table st) as [st1 [names|e]]; [| done].
  by rewrite Hcollect.
Qed.

Lemma ordered_perm order l : ordered order l ≡ₚ l.
Proof.
  unfold ordered.
  destruct (String.eqb order "asc"); [apply array_sort_perm |].
  destruct (String.eqb order "desc"); [apply array_sort_perm | done].
Qed.

Lemma slice0_sublist {A} (l : list A) n : slice0 l n `sublist_of` l.
Proof. unfold slice0. destruct (n <? 0); apply sublist_take. Qed.

(** X13: whatever the values, the limit and the sort argument, [all]
    returns, and every document it returns passes the filter and is a
    document of some collection of the table; with a limit that is not
    negative it returns at most that many.  A sort argument other than
    ["asc"] and ["desc"] sorts nothing: the result is the beginning of the
    documents in the order of the collections.  A negative limit [-n]
    leaves out the last [n] of the documents instead of cutting to a
    length. *)
Theorem all_result_sound :
  forall (table : string) (filter : doc -> bool) (list_ : option Z)
         (sort : option string) (st : state),
    let merged :=
      List.filter filter (concat (map snd (db_of st table))) in
    let limit := default 100 list_ in
    NoDup (map fst (db_of st table)) ->
    exists result,
      (all table filter list_ sort st).2 = Return result
      /\ (forall d, d ∈ result ->
            filter d = true
            /\ exists p, p ∈ db_of st table /\ d ∈ p.2)
      /\ (0 <= limit -> (length result <= Z.to_nat limit)%nat)
      /\ (limit < 0 ->
          length result = (length merged - Z.to_nat (- limit))%nat)
      /\ (forall s, sort = Some s -> s <> "asc" -> s <> "desc" ->
            result = slice0 merged limit).
Proof.
  intros table filter list_ sort st merged limit Hnd.
  eexists. split; [by apply all_result |]. fold merged limit.
  split; [| split; [| split]].
  - intros d Hd.
    eapply elem_of_sublist in Hd; [| apply slice0_sublist].
    rewrite ordered_perm in Hd. subst merged.
    apply list_elem_of_In, filter_In in Hd as [Hd Hf]. split; [done |].
    apply in_concat in Hd as (ds & Hds & Hd).
    apply in_map_iff in Hds as (p & <- & Hp).
    exists p. by rewrite !list_elem_of_In.
  - intros Hlimit. rewrite slice0_nonneg by done. apply firstn_le_length.
  - intros Hlimit. unfold slice0.
    destruct (Z.ltb_spec limit 0); [| lia].
    rewrite length_take, (Permutation_length (ordered_perm _ _)). lia.
  - intros s -> Hasc Hdesc. simpl. unfold ordered.
    apply String.eqb_neq in Hasc, Hdesc. by rewrite Hasc, Hdesc.
Qed.

Lemma all_result_sound_witness :
  exists result,
    (all "main" Sample.positive (Some (-1)) (Some "newest")
       Sample.crowded).2 = Return result
    /\ result = [Doc "x" (VNum 1); Doc "x2" (VNum 2); Doc "y" (VNum 5)].
Proof.
  destruct (all_result_sound "main" Sample.positive (Some (-1))
              (Some "newest") Sample.crowded)
    as (result & Hres & _ & _ & _ & Hsort).
  - apply (bool_decide_unpack _). vm_compute. reflexivity.
  - exists result. split; [exact Hres |].
    rewrite (Hsort "newest"); [reflexivity | reflexivity | discriminate ..].
Defined.

(** ** Loading the cache from the store *)

Lemma load_items_spec cn data :
  forall st c,
    caches st !! cn = Some c ->
    load_items cn data st
    = (State (<[cn := loaded c data]> (caches st)) (store st)
         (trace st ++ map (fun d => CacheSet cn (key d) (value_of d)) data),
       Return tt).
Proof.
  induction data as [|d rest IH]; intros st c Hc; simpl.
  - rewrite app_nil_r, insert_id by done. by destruct st.
  - unfold cache_set. unfold_monad. rewrite Hc. simpl.
    rewrite (IH _ (<[key d := value_of d]> c))
      by (simpl; apply lookup_insert_eq).
    simpl. by rewrite insert_insert_eq, <- app_assoc.
Qed.

Lemma load_collections_spec table names :
  forall st c,
    caches st !! cacheName_of table = Some c ->
    let r := load_collections table names st in
    r.2 = Return tt
    /\ store r.1 = store st
    /\ caches r.1
       = <[cacheName_of table :=
             loaded c (concat (map (docs_of (db_of st table)) names))]>
           (caches st).
Proof.
  induction names as [|n rest IH]; intros st c Hc; simpl.
  - split; [done |]. split; [done |]. by rewrite insert_id.
  - unfold col_find. unfold_monad. simpl.
    rewrite filter_everything, db_of_State. fold (db_of st table).
    rewrite (load_items_spec _ _ _ c) by done. simpl.
    match goal with |- context [load_collections _ _ ?s] =>
      destruct (IH s (loaded c (docs_of (db_of st table) n)))
        as (Hr & Hs & Hcs) end.
    { simpl. apply lookup_insert_eq. }
    simpl in *. rewrite Hr, Hs, Hcs. rewrite db_of_State.
    fold (db_of st table). rewrite insert_insert_eq.
    unfold loaded. by rewrite foldl_app.
Qed.

Lemma loaded_lookup c data k :
  loaded c data !! k
  = match List.find (has_key k) (rev data) with
    | Some d => Some (value_of d)
    | None => c !! k
    end.
Proof.
  induction data as [|d rest IH] using rev_ind; [done |].
  unfold loaded in *. rewrite foldl_app, rev_app_distr. simpl.
  unfold has_key at 1. destruct (String.eqb_spec (key d) k) as [->|Hk].
  - apply lookup_insert_eq.
  - by rewrite lookup_insert_ne.
Qed.

Lemma loadCacheFromDB_spec this table st c :
  caches st !! cacheName_of table = Some c ->
  NoDup (map fst (db_of st table)) ->
  let r := Part000.loadCacheFromDB this table st in
  r.2 = Return tt
  /\ store r.1 = store st
  /\ caches r.1
     = <[cacheName_of table :=
           loaded c (concat (map snd (db_of st table)))]> (caches st)
  /\ DatabaseJs.load this table st = r.
Proof.
  intros Hc Hnd r. subst r.
  unfold Part000.loadCacheFromDB, DatabaseJs.load, listCollections.
  unfold_monad. simpl. rewrite db_of_State. fold (db_of st table).
  match goal with |- context [load_collections _ _ ?s] =>
    destruct (load_collections_spec table (map fst (db_of st table)) s c Hc)
      as (Hr & Hs & Hcs) end.
  simpl in *. rewrite db_of_State in Hcs. fold (db_of st table) in Hcs.
  rewrite docs_of_names in Hcs by done. done.
Qed.

(** X14: loading the cache of a table ([loadCacheFromDB] in the second
    file, the same loop as [load] in [src/classes/Database.js]) reads the
    store without changing it and puts every document of every collection
    in the table's cache under the document's own key.  Afterwards the
    cache holds, for a key that some document has, the value of the last
    such document in the order of the collections, and for any other key
    what it held before. *)
Theorem load_fills_cache :
  forall (this : Database) (table : string) (st : state)
         (c : gmap string value),
    caches st !! cacheName_of table = Some c ->
    NoDup (map fst (db_of st table)) ->
    let r := Part000.loadCacheFromDB this table st in
    r.2 = Return tt
    /\ store r.1 = store st
    /\ caches r.1
       = <[cacheName_of table :=
             loaded c (concat (map snd (db_of st table)))]> (caches st)
    /\ (forall k,
          loaded c (concat (map snd (db_of st table))) !! k
          = match List.find (has_key k)
                    (rev (concat (map snd (db_of st table)))) with
            | Some d => Some (value_of d)
            | None => c !! k
            end)
    /\ DatabaseJs.load this table st = r.
Proof.
  intros this table st c Hc Hnd r.
  destruct (loadCacheFromDB_spec this table st c Hc Hnd)
    as (Hr & Hs & Hcs & Hload).
  split; [done |]. split; [done |]. split; [done |].
  split; [apply loaded_lookup | done].
Qed.

Lemma load_fills_cache_witness :
  let r := Part000.loadCacheFromDB Sample.quiet "main"
             Sample.crowded_cached in
  r.2 = Return tt
  /\ caches r.1
     = <["c_main" := loaded ∅ [Doc "x" (VNum 1); Doc "x2" (VNum 2);
                                Doc "y" (VNum 5); Doc "y2" (VNum 6)]]>
         (caches Sample.crowded_cached).
Proof.
  destruct (load_fills_cache Sample.quiet "main" Sample.crowded_cached ∅)
    as (Hr & _ & Hc & _).
  - reflexivity.
  - apply (bool_decide_unpack _). vm_compute. reflexivity.
  - split; [exact Hr | exact Hc].
Defined.

(** X15: in the second file, once the table's cache was loaded from the
    store, [get] of a key the variable manager has (not a system key) is
    answered from the cache without a call to the store: with the value of
    the last document stored under the composite key when that value is
    neither null nor undefined, with the registry default when it is, and
    with the registry default when no document has the key and the cache
    had no entry for it. *)
Theorem Part000_get_after_load :
  forall (this : Database) (table key : string) (id : value) (st : state)
         (c : gmap string value),
    let k := Part000.cacheKey_of key id in
    let cn := cacheName_of table in
    let dflt := vm_default (variableManager this) key table in
    let docs := concat (map snd (db_of st table)) in
    caches st !! cn = Some c ->
    NoDup (map fst (db_of st table)) ->
    includes aoijs_vars key = false ->
    vm_has (variableManager this) key table = true ->
    let st1 := (Part000.loadCacheFromDB this table st).1 in
    let r := Part000.get this table key id st1 in
    trace r.1 = (trace st1 ++ [CacheGet cn k])%list
    /\ store r.1 = store st
    /\ (forall d, List.find (has_key k) (rev docs) = Some d ->
          r.2 = Return (RRecord k (nullish_or (value_of d) dflt)))
    /\ (List.find (has_key k) (rev docs) = None -> c !! k = None ->
        r.2 = Return (RRecord k dflt)).
Proof.
  intros this table key id st c k cn dflt docs Hc Hnd Hsys Hhas st1 r.
  destruct (loadCacheFromDB_spec this table st c Hc Hnd)
    as (_ & Hs & Hcs & _). fold st1 cn docs in Hs, Hcs.
  assert (Hr : r = (State (caches st1) (store st1)
                      (trace st1 ++ [CacheGet cn k]),
                    Return (RRecord k
                      (nullish_or (default VUndefined (loaded c docs !! k))
                         dflt)))).
  { subst r. unfold Part000.get. fold k cn. rewrite Hsys, Hhas. run.
    by rewrite Hcs, lookup_insert_eq. }
  rewrite Hr. simpl. split; [done |]. split; [done |].
  rewrite loaded_lookup. split.
  - by intros d ->.
  - by intros -> ->.
Qed.

Lemma Part000_get_after_load_witness :
  let st1 := (Part000.loadCacheFromDB Sample.quiet "main"
                (clear_cache "main" Sample.warm)).1 in
  let r := Part000.get Sample.quiet "main" "money" (VStr "1") st1 in
  trace r.1 = (trace st1 ++ [CacheGet "c_main" "money_1"])%list
  /\ r.2 = Return (RRecord "money_1" (VNum 5)).
Proof.
  destruct (Part000_get_after_load Sample.quiet "main" "money" (VStr "1")
              (clear_cache "main" Sample.warm) ∅)
    as (Htr & _ & Hd & _).
  - reflexivity.
  - apply (bool_decide_unpack _). vm_compute. reflexivity.
  - reflexivity.
  - reflexivity.
  - split; [exact Htr |].
    apply (Hd (Doc "money_1" (VNum 5))). reflexivity.
Defined.

(** ** Start-up *)

Lemma includes_true l k : includes l k = true <-> k ∈ l.
Proof.
  unfold includes. rewrite existsb_exists. split.
  - intros (x & Hx & Heq). apply String.eqb_eq in Heq. subst x.
    by apply list_elem_of_In.
  - intros Hk. exists k. split; [by apply list_elem_of_In |].
    apply String.eqb_refl.
Qed.

Lemma cacheName_of_inj t1 t2 : cacheName_of t1 = cacheName_of t2 -> t1 = t2.
Proof.
  unfold cacheName_of. intros H.
  change (String "c" (String "_" t1) = String "c" (String "_" t2)) in H.
  by injection H.
Qed.

(** X16: when [options.tables] is absent, empty, or lists the reserved
    name [__aoijs_vars__], [connect] of both files ends the process with
    [process.exit(0)], whatever the server would answer, having created no
    cache and touched nothing. *)
Theorem connect_rejects_tables :
  forall (this : Database) (options : Options) (server : Server)
         (st : state),
    tables options = None \/ tables options = Some []
    \/ (exists ts, tables options = Some ts /\ "__aoijs_vars__" ∈ ts) ->
    DatabaseJs.connect options server st = (st, Return (Exit 0))
    /\ Part000.connect this options server st = (st, Return (Exit 0)).
Proof.
  intros this options server st Hbad.
  assert (Hcheck : exists e, checked_tables options st = (st, Throw e)).
  { unfold checked_tables.
    destruct Hbad as [-> | [-> | (ts & -> & Hin)]]; [by eexists .. |].
    apply includes_true in Hin. rewrite Hin.
    destruct ts; by eexists. }
  destruct Hcheck as (e & Hcheck).
  unfold DatabaseJs.connect, Part000.connect, or_exit, client_new.
  unfold_monad.
  destruct (client_answer server); simpl; [done |]. by rewrite Hcheck.
Qed.

Lemma connect_rejects_tables_witness :
  DatabaseJs.connect {| tables := Some ["main"; "__aoijs_vars__"];
                        logging := true |}
    {| client_answer := None; connect_answer := None;
       ping_answer := Return true; elapsed := 3 |} Sample.fresh
  = (Sample.fresh, Return (Exit 0)).
Proof.
  apply (connect_rejects_tables Sample.quiet). right. right.
  exists ["main"; "__aoijs_vars__"]. split; [reflexivity |].
  apply list_elem_of_In. simpl. auto.
Defined.

Lemma DatabaseJs_connect_caches_spec ts :
  forall st,
    let r := DatabaseJs.connect_caches ts st in
    r.2 = Return tt
    /\ store r.1 = store st /\ trace r.1 = trace st
    /\ (forall t, t ∈ ts -> caches r.1 !! cacheName_of t = Some ∅)
    /\ (forall cn, (forall t, t ∈ ts -> cacheName_of t <> cn) ->
          caches r.1 !! cn = caches st !! cn).
Proof.
  induction ts as [|t rest IH]; intros st; simpl.
  - split; [done |]. split; [done |]. split; [done |].
    split; [| done]. intros t Ht. by apply elem_of_nil in Ht.
  - unfold createCache. unfold_monad. simpl.
    match goal with |- context [DatabaseJs.connect_caches _ ?s] =>
      destruct (IH s) as (Hr & Hs & Ht & Hin & Hout) end.
    simpl in *. rewrite Hr, Hs, Ht.
    split; [done |]. split; [done |]. split; [done |]. split.
    + intros t' Ht'. destruct (decide (t' ∈ rest)) as [Hrest|Hrest].
      * by apply Hin.
      * apply elem_of_cons in Ht' as [-> | Ht']; [| done].
        rewrite Hout; [apply lookup_insert_eq |].
        intros t' Ht' Heq. apply cacheName_of_inj in Heq. by subst t'.
    + intros cn Hcn. rewrite Hout.
      * apply lookup_insert_ne. apply Hcn. by left.
      * intros t' Ht'. apply Hcn. by right.
Qed.

(** The steps of [connect] before the caches are made. *)
Lemma connect_prelude_ok options server ts st :
  tables options = Some ts -> ts <> [] -> "__aoijs_vars__" ∉ ts ->
  client_answer server = None -> connect_answer server = None ->
  logging options = false \/ (exists ok, ping_answer server = Return ok) ->
  client_new server st = (st, Return tt)
  /\ checked_tables options st = (st, Return (ts ++ ["__aoijs_vars__"])%list)
  /\ client_connect server st = (st, Return tt)
  /\ (if logging options then ping server;; ret tt else ret tt) st
     = (st, Return tt).
Proof.
  intros Hts Hne Hres Hclient Hconn Hping.
  unfold client_new, checked_tables, client_connect, ping.
  rewrite Hclient, Hconn, Hts.
  assert (Hinc : includes ts "__aoijs_vars__" = false).
  { apply not_true_is_false. intros H. by apply includes_true in H. }
  rewrite Hinc. destruct ts; [done |].
  split; [done |]. split; [done |]. split; [done |].
  destruct (logging options); [| done].
  destruct Hping as [? | (ok & ->)]; [done |].
  unfold_monad. by destruct ok.
Qed.

Lemma DatabaseJs_connect_steps options server ts st :
  tables options = Some ts -> ts <> [] -> "__aoijs_vars__" ∉ ts ->
  client_answer server = None -> connect_answer server = None ->
  logging options = false \/ (exists ok, ping_answer server = Return ok) ->
  DatabaseJs.connect options server st
  = or_exit (DatabaseJs.connect_caches (ts ++ ["__aoijs_vars__"])%list;;
             ret (ts ++ ["__aoijs_vars__"])%list) st.
Proof.
  intros Hts Hne Hres Hclient Hconn Hping.
  destruct (connect_prelude_ok options server ts st)
    as (H1 & H2 & H3 & H4); try done.
  unfold DatabaseJs.connect, or_exit.
  unfold mbind, M_bind, bind in H4 |- *.
  rewrite H1. cbv beta iota. rewrite H2. cbv beta iota.
  rewrite H3. cbv beta iota. rewrite H4. done.
Qed.

(** X17: with a list of tables that passes the checks and a server that
    answers, [connect] of [src/classes/Database.js] ends ready with the
    configured tables followed by [__aoijs_vars__], and each of them has
    an empty cache; the other caches and the store are as before.  The
    answer of the ping does not matter as long as it does not throw (an
    answer that is not ok, read as -1, does not stop the start-up), and the
    ping is not sent at all when logging is off. *)
Theorem DatabaseJs_connect_ready :
  forall (options : Options) (server : Server) (ts : list string)
         (st : state),
    tables options = Some ts -> ts <> [] -> "__aoijs_vars__" ∉ ts ->
    client_answer server = None -> connect_answer server = None ->
    logging options = false \/ (exists ok, ping_answer server = Return ok) ->
    let r := DatabaseJs.connect options server st in
    r.2 = Return (Ready (ts ++ ["__aoijs_vars__"]))
    /\ store r.1 = store st
    /\ (forall t, t ∈ (ts ++ ["__aoijs_vars__"])%list ->
          caches r.1 !! cacheName_of t = Some ∅)
    /\ (forall cn,
          (forall t, t ∈ (ts ++ ["__aoijs_vars__"])%list ->
                     cacheName_of t <> cn) ->
          caches r.1 !! cn = caches st !! cn).
Proof.
  intros options server ts st Hts Hne Hres Hclient Hconn Hping r.
  subst r. rewrite (DatabaseJs_connect_steps options server ts st) by done.
  destruct (DatabaseJs_connect_caches_spec
              (ts ++ ["__aoijs_vars__"])%list st)
    as (Hr & Hs & _ & Hin & Hout).
  unfold or_exit. unfold_monad.
  destruct (DatabaseJs.connect_caches _ st) as [st1 [[]|e]]; done.
Qed.

Lemma DatabaseJs_connect_ready_witness :
  let r := DatabaseJs.connect {| tables := Some ["main"]; logging := true |}
             {| client_answer := None; connect_answer := None;
                ping_answer := Return false; elapsed := 3 |}
             Sample.warm in
  r.2 = Return (Ready ["main"; "__aoijs_vars__"])
  /\ caches r.1 !! cacheName_of "main" = Some ∅
  /\ caches r.1 !! cacheName_of "__aoijs_vars__" = Some ∅.
Proof.
  destruct (DatabaseJs_connect_ready
              {| tables := Some ["main"]; logging := true |}
              {| client_answer := None; connect_answer := None;
                 ping_answer := Return false; elapsed := 3 |}
              ["main"] Sample.warm)
    as (Hr & _ & Hin & _); try reflexivity.
  - discriminate.
  - intros Hin. apply list_elem_of_In in Hin. simpl in Hin.
    destruct Hin as [Hin | []]. discriminate.
  - right. by eexists.
  - split; [exact Hr |]. split; apply Hin; apply list_elem_of_In;
      simpl; auto.
Defined.

Lemma checked_tables_state options st :
  (checked_tables options st).1 = st.
Proof.
  unfold checked_tables. destruct (tables options) as [[|t ts]|]; try done.
  by destruct (includes _ _).
Qed.

(** X18: when the driver refuses the url, the connection fails, or (with
    logging on) the ping throws, [connect] of both files ends the process
    with [process.exit(0)] before any cache is created: the caches and the
    store are as before. *)
Theorem connect_server_failure :
  forall (this : Database) (options : Options) (server : Server)
         (st : state),
    is_Some (client_answer server) \/ is_Some (connect_answer server)
    \/ (logging options = true /\ exists e, ping_answer server = Throw e) ->
    DatabaseJs.connect options server st = (st, Return (Exit 0))
    /\ Part000.connect this options server st = (st, Return (Exit 0)).
Proof.
  intros this options server st Hfail.
  unfold DatabaseJs.connect, Part000.connect, or_exit, client_new,
    client_connect, ping.
  unfold mbind, M_bind, mret, M_ret, bind, ret, throw.
  pose proof (checked_tables_state options st) as Hst.
  destruct (client_answer server) as [e1|] eqn:Hclient; [done |].
  destruct (checked_tables options st) as [st1 [ts|e2]]; simpl in Hst;
    subst st1; [| done].
  destruct (connect_answer server) as [e3|] eqn:Hconn; [done |].
  destruct Hfail as [[? [=]] | [[? [=]] | (Hlog & e & Hping)]].
  by rewrite Hlog, Hping.
Qed.

Lemma connect_server_failure_witness :
  Part000.connect Sample.quiet {| tables := Some ["main"]; logging := true |}
    {| client_answer := None; connect_answer := None;
       ping_answer := Throw (MongoError "no primary"); elapsed := 0 |}
    Sample.warm
  = (Sample.warm, Return (Exit 0)).
Proof.
  apply (connect_server_failure Sample.quiet
           {| tables := Some ["main"]; logging := true |}).
  right. right. split; [reflexivity |]. by eexists.
Defined.

Lemma Part000_connect_caches_spec this ts :
  forall st,
    (forall t, t ∈ ts -> NoDup (map fst (db_of st t))) ->
    let r := Part000.connect_caches this ts st in
    r.2 = Return tt
    /\ store r.1 = store st
    /\ (forall t, t ∈ ts ->
          caches r.1 !! cacheName_of t
          = Some (loaded ∅ (concat (map snd (db_of st t)))))
    /\ (forall cn, (forall t, t ∈ ts -> cacheName_of t <> cn) ->
          caches r.1 !! cn = caches st !! cn).
Proof.
  induction ts as [|t rest IH]; intros st Hnd; simpl.
  - split; [done |]. split; [done |]. split; [| done].
    intros t Ht. by apply elem_of_nil in Ht.
  - unfold createCache. unfold_monad. simpl.
    set (st0 := State (<[cacheName_of t := ∅]> (caches st)) (store st)
                  (trace st)).
    destruct (loadCacheFromDB_spec this t st0 ∅)
      as (Hr0 & Hs0 & Hcs0 & _).
    { simpl. apply lookup_insert_eq. }
    { apply Hnd. by left. }
    destruct (Part000.loadCacheFromDB this t st0) as [st1 o1].
    simpl in Hr0, Hs0, Hcs0. subst o1.
    assert (Hdb : forall t', db_of st1 t' = db_of st t').
    { intros t'. unfold db_of. by rewrite Hs0. }
    destruct (IH st1) as (Hr & Hs & Hin & Hout).
    { intros t' Ht'. rewrite Hdb. apply Hnd. by right. }
    destruct (Part000.connect_caches this rest st1) as [st2 o2].
    simpl in *. subst o2.
    split; [done |]. split; [congruence |]. split.
    + intros t' Ht'. destruct (decide (t' ∈ rest)) as [Hrest|Hrest].
      * rewrite Hin by done. by rewrite Hdb.
      * apply elem_of_cons in Ht' as [-> | Ht']; [| done].
        rewrite Hout.
        -- rewrite Hcs0, lookup_insert_eq. done.
        -- intros t' Ht' Heq. apply cacheName_of_inj in Heq. by subst t'.
    + intros cn Hcn. rewrite Hout.
      * rewrite Hcs0, !lookup_insert_ne; [done | |]; apply Hcn; by left.
      * intros t' Ht'. apply Hcn. by right.
Qed.

Lemma Part000_connect_steps this options server ts st :
  tables options = Some ts -> ts <> [] -> "__aoijs_vars__" ∉ ts ->
  client_answer server = None -> connect_answer server = None ->
  logging options = false \/ (exists ok, ping_answer server = Return ok) ->
  Part000.connect this options server st
  = or_exit (Part000.connect_caches this (ts ++ ["__aoijs_vars__"])%list;;
             ret (ts ++ ["__aoijs_vars__"])%list) st.
Proof.
  intros Hts Hne Hres Hclient Hconn Hping.
  destruct (connect_prelude_ok options server ts st)
    as (H1 & H2 & H3 & H4); try done.
  unfold Part000.connect, or_exit.
  unfold mbind, M_bind, bind in H4 |- *.
  rewrite H1. cbv beta iota. rewrite H2. cbv beta iota.
  rewrite H3. cbv beta iota. rewrite H4. done.
Qed.

(** X19: with a list of tables that passes the checks and a server that
    answers, [connect] of the second file ends ready with the configured
    tables followed by [__aoijs_vars__]; the store is as before, and the
    cache of each of these tables holds what loading the documents of that
    table into an empty cache gives. *)
Theorem Part000_connect_ready :
  forall (this : Database) (options : Options) (server : Server)
         (ts : list string) (st : state),
    tables options = Some ts -> ts <> [] -> "__aoijs_vars__" ∉ ts ->
    client_answer server = None -> connect_answer server = None ->
    logging options = false \/ (exists ok, ping_answer server = Return ok) ->
    (forall t, t ∈ (ts ++ ["__aoijs_vars__"])%list ->
       NoDup (map fst (db_of st t))) ->
    let r := Part000.connect this options server st in
    r.2 = Return (Ready (ts ++ ["__aoijs_vars__"]))
    /\ store r.1 = store st
    /\ (forall t, t ∈ (ts ++ ["__aoijs_vars__"])%list ->
          caches r.1 !! cacheName_of t
          = Some (loaded ∅ (concat (map snd (db_of st t))))).
Proof.
  intros this options server ts st Hts Hne Hres Hclient Hconn Hping Hnd r.
  subst r. rewrite (Part000_connect_steps this options server ts st) by done.
  destruct (Part000_connect_caches_spec this
              (ts ++ ["__aoijs_vars__"])%list st Hnd)
    as (Hr & Hs & Hin & _).
  unfold or_exit. unfold_monad.
  destruct (Part000.connect_caches this _ st) as [st1 [[]|e]]; done.
Qed.

Lemma Part000_connect_ready_witness :
  let r := Part000.connect Sample.quiet
             {| tables := Some ["main"]; logging := false |}
             {| client_answer := None; connect_answer := None;
                ping_answer := Throw (MongoError "unused"); elapsed := 0 |}
             Sample.two_collections in
  r.2 = Return (Ready ["main"; "__aoijs_vars__"])
  /\ caches r.1 !! cacheName_of "main"
     = Some (loaded ∅ [Doc "x" (VNum 1); Doc "y" (VNum 5)]).
Proof.
  destruct (Part000_connect_ready Sample.quiet
              {| tables := Some ["main"]; logging := false |}
              {| client_answer := None; connect_answer := None;
                 ping_answer := Throw (MongoError "unused"); elapsed := 0 |}
              ["main"] Sample.two_collections)
    as (Hr & _ & Hin); try reflexivity.
  - discriminate.
  - intros Hin. apply list_elem_of_In in Hin. simpl in Hin.
    destruct Hin as [Hin | []]. discriminate.
  - by left.
  - intros t Ht. apply list_elem_of_In in Ht. simpl in Ht.
    destruct Ht as [<- | [<- | []]];
      apply (bool_decide_unpack _); vm_compute; reflexivity.
  - split; [exact Hr |].
    apply (Hin "main"). apply list_elem_of_In. simpl. auto.
Defined.

(** ** [findOne] *)

(** X21: [findOne(table, name)] returns null exactly when the collection
    has no document (it is empty or does not exist) and changes neither
    the caches nor the store.  After a [set] of the second file,
    [findOne] on the key's collection returns a document; when the
    collection was empty or absent before, it is the one just written. *)
Theorem findOne_after_set :
  forall (this : Database) (table key : string) (id v : value) (st : state)
         (c : gmap string value),
    caches st !! cacheName_of table = Some c ->
    let k := Part000.cacheKey_of key id in
    let st1 := (Part000.set this table key id v st).1 in
    (forall name s,
        ((findOne table name s).2 = Return None
         <-> docs_of (db_of s table) name = [])
        /\ caches (findOne table name s).1 = caches s
        /\ store (findOne table name s).1 = store s)
    /\ (exists d, (findOne table key st1).2 = Return (Some d))
    /\ (docs_of (db_of st table) key = [] ->
        (findOne table key st1).2 = Return (Some (Doc k (bson_value v)))).
Proof.
  intros this table key id v st c Hc k st1.
  assert (Hone : forall name s,
    (findOne table name s).2 = Return (head (docs_of (db_of s table) name))).
  { intros name s. unfold findOne. run. by rewrite db_of_State. }
  split; [| split].
  - intros name s. rewrite Hone. split; [| done].
    destruct (docs_of (db_of s table) name); simpl; split; congruence.
  - subst st1. rewrite Hone.
    rewrite (Part000_set_steps this table key id v st c Hc). fold k.
    rewrite col_updateOne_docs, String.eqb_refl.
    destruct (docs_of _ key) as [|d rest]; simpl; [by eexists |].
    destruct (has_key k d); by eexists.
  - intros Hempty. subst st1. rewrite Hone.
    rewrite (Part000_set_steps this table key id v st c Hc). fold k.
    rewrite col_updateOne_docs, String.eqb_refl.
    rewrite db_of_State. fold (db_of st table). by rewrite Hempty.
Qed.

Lemma findOne_after_set_witness :
  let st1 := (Part000.set Sample.quiet "main" "money" (VStr "1") (VNum 5)
                Sample.fresh).1 in
  (findOne "main" "money" Sample.fresh).2 = Return None
  /\ (findOne "main" "money" st1).2
     = Return (Some (Doc "money_1" (VNum 5))).
Proof.
  destruct (findOne_after_set Sample.quiet "main" "money" (VStr "1")
              (VNum 5) Sample.fresh ∅ eq_refl) as (Hnull & _ & Hset).
  split.
  - apply (Hnull "money" Sample.fresh). reflexivity.
  - apply Hset. reflexivity.
Defined.

(** ** [delete] followed by [get] *)

(** X22: in [src/classes/Database.js], when the key's own collection is
    the first that holds a document for the composite key and holds only
    one such document, [delete] followed by [get] resolves the key afresh:
    the record carries null for a system key, the registry default for a
    key the variable manager has, and nothing is returned for any other
    key. *)
Theorem DatabaseJs_delete_then_get :
  forall (this : Database) (table key : string) (id : value) (st : state)
         (pre post : database) (ds : collection) (d : doc)
         (c : gmap string value),
    let k := DatabaseJs.cacheKey_of key id in
    db_of st table = (pre ++ (key, ds) :: post)%list ->
    NoDup (map fst (db_of st table)) ->
    Forall (fun p => List.find (has_key k) p.2 = None) pre ->
    List.find (has_key k) ds = Some d ->
    List.find (has_key k) (remove_first k ds) = None ->
    caches st !! cacheName_of table = Some c ->
    let st1 := (DatabaseJs.delete this table key id st).1 in
    (DatabaseJs.get this table key id st1).2
    = Return (if includes aoijs_vars key then RRecord k VNull
              else if vm_has (variableManager this) key table
                   then RRecord k
                          (vm_default (variableManager this) key table)
                   else RUndefined).
Proof.
  intros this table key id st pre post ds d c k Hdb Hnd Hpre Hd Huniq Hc st1.
  destruct (NoDup_names_split pre post key ds) as [Hname _];
    [by rewrite <- Hdb |].
  subst st1.
  rewrite (DatabaseJs_delete_hit this table key id st pre post key ds d)
    by done.
  fold k. unfold cache_delete. unfold_monad. simpl. rewrite Hc. simpl.
  unfold DatabaseJs.get. fold k. run.
  rewrite !lookup_insert_eq. simpl. rewrite lookup_delete_eq. simpl.
  destruct (includes aoijs_vars key); simpl.
  - rewrite db_of_State, lookup_insert_eq. simpl.
    by rewrite docs_of_split, Huniq.
  - destruct (vm_has _ key table); simpl; [| done].
    rewrite db_of_State, lookup_insert_eq. simpl.
    rewrite docs_of_split, Huniq by done. simpl.
    by rewrite lookup_insert_eq.
Qed.

Lemma DatabaseJs_delete_then_get_witness :
  let st1 := (DatabaseJs.delete Sample.quiet "main" "money" (VStr "1")
                Sample.warm).1 in
  (DatabaseJs.get Sample.quiet "main" "money" (VStr "1") st1).2
  = Return (RRecord "money_1" (VNum 0)).
Proof.
  apply (DatabaseJs_delete_then_get Sample.quiet "main" "money" (VStr "1")
           Sample.warm [] [] [Doc "money_1" (VNum 5)]
           (Doc "money_1" (VNum 5)) {[ "money_1" := VNum 5 ]}).
  - reflexivity.
  - apply (bool_decide_unpack _). vm_compute. reflexivity.
  - constructor.
  - reflexivity.
  - reflexivity.
  - reflexivity.
Defined.
